(** * Reinforcement-learning presets and policy networks
      (tensor2tensor/models/research/rl.py)

    A shallow embedding of the module: Python objects live in a store and are
    passed by reference, exceptions are outcomes, the TensorFlow graph is an
    explicit state, and floating-point scalars are read as exact rationals. *)

From Stdlib Require Import ZArith QArith Qminmax.
From stdpp Require Import base option list gmap strings pretty.

Close Scope Q_scope.

(** ** Python outcomes *)

(** The exception classes the module can meet. *)
Inductive exn : Type :=
  | ValueError (msg : string)
  | TypeError (msg : string)
  | KeyError (key : string)
  | AttributeError (name : string)
  | IndexError
  | LookupError (msg : string)
  | ZeroDivisionError.

Inductive outcome (A : Type) : Type :=
  | Ok (a : A)
  | Raise (e : exn).
Arguments Ok {A} a.
Arguments Raise {A} e.

#[global] Instance outcome_ret : MRet outcome := λ A a, Ok a.
#[global] Instance outcome_bind : MBind outcome := λ A B k o,
  match o with
  | Ok a => k a
  | Raise e => Raise e
  end.

(** A computation over a mutable state [S].  An exception keeps the state
    reached so far: Python does not roll anything back. *)
Definition M (S A : Type) : Type := S → outcome A * S.

Definition raise {S A} (e : exn) : M S A := λ s, (Raise e, s).
Definition lift {S A} (o : outcome A) : M S A := λ s, (o, s).

#[global] Instance M_ret {S} : MRet (M S) := λ A a s, (Ok a, s).
#[global] Instance M_bind {S} : MBind (M S) := λ A B k m s,
  match m s with
  | (Ok a, s') => k a s'
  | (Raise e, s') => (Raise e, s')
  end.

(** Reading and replacing the state. *)
Definition get {S} : M S S := λ s, (Ok s, s).
Definition put {S} (s : S) : M S unit := λ _, (Ok tt, s).

(** ** Python values *)

(** References into the object store. *)
Definition loc : Type := nat.

Inductive atom : Type :=
  | ANone
  | ABool (b : bool)
  | AInt (z : Z)
  | AFloat (q : Q)
  | AStr (s : string).

Inductive pyval : Type :=
  | Atom (a : atom)
  | PyTuple (items : list atom)
  | PyList (items : list atom).

Coercion Atom : atom >-> pyval.

Definition is_None (v : pyval) : bool :=
  match v with Atom ANone => true | _ => false end.

(** ** tf.contrib.training.HParams *)

(** [type(value)] as HParams records it. *)
Inductive pytype : Type := TNone | TBool | TInt | TFloat | TStr.

Definition type_of (a : atom) : pytype :=
  match a with
  | ANone => TNone
  | ABool _ => TBool
  | AInt _ => TInt
  | AFloat _ => TFloat
  | AStr _ => TStr
  end.

(** An HParams instance: its attributes and the private [_hparam_types]
    table, which maps a registered name to [(type, is_list)]. *)
Record HParams : Type := {
  hp_types : gmap string (pytype * bool);
  hp_attrs : gmap string pyval;
}.

Definition empty_hparams : HParams := {| hp_types := ∅; hp_attrs := ∅ |}.

(** [getattr(hparams, name, default)]. *)
Definition getattr_default (hp : HParams) (name : string) (dflt : pyval) : pyval :=
  default dflt (hp_attrs hp !! name).

(** [setattr(hparams, name, value)]: a plain attribute write, which does not
    touch [_hparam_types]. *)
Definition hp_setattr (name : string) (value : pyval) (hp : HParams) : HParams :=
  {| hp_types := hp_types hp; hp_attrs := <[name := value]> (hp_attrs hp) |}.

Definition hp_settype (name : string) (ty : pytype * bool) (hp : HParams) : HParams :=
  {| hp_types := <[name := ty]> (hp_types hp); hp_attrs := hp_attrs hp |}.

(** [_cast_to_type_if_compatible(name, param_type, value)]: a registered
    [None] type accepts anything; a string, a bool and an int accept only
    their own kind; a float accepts an int or a float and converts it. *)
Definition cast_to_type_if_compatible (name : string) (param_type : pytype)
    (value : atom) : outcome atom :=
  let fail := Raise (ValueError ("Could not cast hparam '" +:+ name +:+ "'")) in
  match param_type, value with
  | TNone, _ => Ok value
  | TStr, AStr _ => Ok value
  | TBool, ABool _ => Ok value
  | TInt, AInt _ => Ok value
  | TFloat, AInt z => Ok (AFloat (inject_Z z))
  | TFloat, AFloat _ => Ok value
  | _, _ => fail
  end.

Fixpoint cast_all (name : string) (param_type : pytype) (values : list atom)
    : outcome (list atom) :=
  match values with
  | [] => Ok []
  | v :: vs =>
      match cast_to_type_if_compatible name param_type v with
      | Raise e => Raise e
      | Ok v' =>
          match cast_all name param_type vs with
          | Raise e => Raise e
          | Ok vs' => Ok (v' :: vs')
          end
      end
  end.

(** ** The object store *)

Inductive pyobj : Type :=
  | OHParams (hp : HParams)
  | OPyFuncBatchEnv (batch_env : loc)
  | OSimulatedBatchEnv (kwargs : list (string * loc))
  | OSimulatedBatchGymEnv (kwargs : list (string * loc))
  | OOther (tag : string).

Definition heap : Type := list pyobj.

(** A new object gets the next free reference. *)
Definition alloc (o : pyobj) : M heap loc := λ h, (Ok (length h), h ++ [o]).

Definition load_hparams (self : loc) : M heap HParams := λ h,
  match h !! self with
  | Some (OHParams hp) => (Ok hp, h)
  | _ => (Raise (TypeError "not an HParams instance"), h)
  end.

Definition store_hparams (self : loc) (hp : HParams) : M heap unit := λ h,
  (Ok tt, <[self := OHParams hp]> h).

(** [hparams.name = value]. *)
Definition setattr (self : loc) (name : string) (value : pyval) : M heap unit :=
  hp ← load_hparams self;
  store_hparams self (hp_setattr name value hp).

(** [HParams.add_hparam(name, value)]: refuses a name whose attribute is
    already there and not [None], refuses an empty list or tuple, records the
    type and writes the attribute. *)
Definition add_hparam (self : loc) (name : string) (value : pyval) : M heap unit :=
  hp ← load_hparams self;
  if negb (is_None (getattr_default hp name ANone)) then
    raise (ValueError ("Hyperparameter name is reserved: " +:+ name))
  else
    match value return M heap unit with
    | PyTuple [] | PyList [] =>
        raise (ValueError ("Multi-valued hyperparameters cannot be empty: " +:+ name))
    | PyTuple (v0 :: _) | PyList (v0 :: _) =>
        store_hparams self (hp_setattr name value (hp_settype name (type_of v0, true) hp))
    | Atom v =>
        store_hparams self (hp_setattr name value (hp_settype name (type_of v, false) hp))
    end.

(** [HParams.set_hparam(name, value)]: the name must be registered and the
    value must fit the registered type. *)
Definition set_hparam (self : loc) (name : string) (value : pyval) : M heap unit :=
  hp ← load_hparams self;
  match (hp_types hp !! name : option (pytype * bool)) with
  | None => raise (KeyError name)
  | Some (param_type, is_list) =>
      match value return M heap unit with
      | PyList items =>
          if negb is_list then
            raise (ValueError ("Must not pass a list for single-valued parameter: " +:+ name))
          else
            items' ← lift (S:=heap) (cast_all name param_type items);
            store_hparams self (hp_setattr name (PyList items') hp)
      | PyTuple _ =>
          if is_list then
            raise (ValueError ("Must pass a list for multi-valued parameter: " +:+ name))
          else if param_type is TNone then
            store_hparams self (hp_setattr name value hp)
          else raise (ValueError ("Could not cast hparam '" +:+ name +:+ "'"))
      | Atom v =>
          if is_list then
            raise (ValueError ("Must pass a list for multi-valued parameter: " +:+ name))
          else
            v' ← lift (S:=heap) (cast_to_type_if_compatible name param_type v);
            store_hparams self (hp_setattr name (Atom v') hp)
      end
  end.

(** [tf.contrib.training.HParams] called with keywords: a new instance, then
    [add_hparam] for every keyword. *)
Fixpoint add_hparams (self : loc) (kwargs : list (string * pyval)) : M heap unit :=
  match kwargs with
  | [] => mret tt
  | (name, value) :: rest => add_hparam self name value;; add_hparams self rest
  end.

Definition new_HParams (kwargs : list (string * pyval)) : M heap loc :=
  self ← alloc (OHParams empty_hparams);
  add_hparams self kwargs;;
  mret self.

(** ** Hyperparameter presets *)

(** The three ways the presets write a field. *)
Inductive stmt : Type :=
  | Assign (name : string) (value : pyval)      (* hparams.name = value *)
  | AddHparam (name : string) (value : pyval)   (* hparams.add_hparam(name, value) *)
  | SetHparam (name : string) (value : pyval).  (* hparams.set_hparam(name, value) *)

Definition stmt_name (s : stmt) : string :=
  match s with Assign n _ | AddHparam n _ | SetHparam n _ => n end.

Definition exec (hparams : loc) (s : stmt) : M heap unit :=
  match s with
  | Assign name value => setattr hparams name value
  | AddHparam name value => add_hparam hparams name value
  | SetHparam name value => set_hparam hparams name value
  end.

Fixpoint exec_all (hparams : loc) (body : list stmt) : M heap unit :=
  match body with
  | [] => mret tt
  | s :: rest => exec hparams s;; exec_all hparams rest
  end.

(** [hparams = base(); <body>; return hparams]. *)
Definition derive (base : M heap loc) (body : list stmt) : M heap loc :=
  hparams ← base;
  exec_all hparams body;;
  mret hparams.

Definition Float (q : Q) : pyval := Atom (AFloat q).
Definition Int (z : Z) : pyval := Atom (AInt z).
Definition Str (s : string) : pyval := Atom (AStr s).
Definition Bool (b : bool) : pyval := Atom (ABool b).
Definition None_ : pyval := Atom ANone.
Definition IntTuple (zs : list Z) : pyval := PyTuple (AInt <$> zs).
Definition FloatList (qs : list Q) : pyval := PyList (AFloat <$> qs).

Section Presets.

(** [common_hparams.basic_params1] is defined outside this module; it builds
    one HParams instance from a fixed keyword list, which is taken as given. *)
Variable basic_params1_kwargs : list (string * pyval).

Definition basic_params1 : M heap loc := new_HParams basic_params1_kwargs.

Definition ppo_base_v1_body : list stmt := [
  Assign "learning_rate_schedule" (Str "constant");
  Assign "learning_rate_constant" (Float 1e-4);
  Assign "clip_grad_norm" (Float 0.5);
  AddHparam "lr_decay_in_final_epoch" (Bool false);
  AddHparam "init_mean_factor" (Float 0.1);
  AddHparam "init_logstd" (Float 0.1);
  AddHparam "policy_layers" (IntTuple [100; 100]%Z);
  AddHparam "value_layers" (IntTuple [100; 100]%Z);
  AddHparam "clipping_coef" (Float 0.2);
  AddHparam "gae_gamma" (Float 0.99);
  AddHparam "gae_lambda" (Float 0.95);
  AddHparam "entropy_loss_coef" (Float 0.01);
  AddHparam "value_loss_coef" (Int 1);
  AddHparam "optimization_epochs" (Int 15);
  AddHparam "epoch_length" (Int 200);
  AddHparam "epochs_num" (Int 2000);
  AddHparam "eval_every_epochs" (Int 10);
  AddHparam "save_models_every_epochs" (Int 30);
  AddHparam "optimization_batch_size" (Int 50);
  AddHparam "intrinsic_reward_scale" (Float 0.0);
  AddHparam "logits_clip" (Float 0.0);
  AddHparam "dropout_ppo" (Float 0.1);
  AddHparam "effective_num_agents" None_ ].

Definition ppo_base_v1 : M heap loc := derive basic_params1 ppo_base_v1_body.

Definition basic_policy_parameters : M heap loc :=
  new_HParams [("wrappers", None_)].

Definition ppo_discrete_action_base_body : list stmt := [
  AddHparam "policy_network" (Str "feed_forward_categorical_policy") ].

Definition ppo_discrete_action_base : M heap loc :=
  derive ppo_base_v1 ppo_discrete_action_base_body.

Definition discrete_random_action_base_body : list stmt := [
  AddHparam "policy_network" (Str "random_policy") ].

Definition discrete_random_action_base : M heap loc :=
  derive basic_params1 discrete_random_action_base_body.

Definition ppo_atari_base_body : list stmt := [
  Assign "learning_rate_constant" (Float 1e-4);
  Assign "epoch_length" (Int 200);
  Assign "gae_gamma" (Float 0.985);
  Assign "gae_lambda" (Float 0.985);
  Assign "entropy_loss_coef" (Float 0.003);
  Assign "value_loss_coef" (Int 1);
  Assign "optimization_epochs" (Int 3);
  Assign "epochs_num" (Int 1000);
  Assign "policy_network" (Str "feed_forward_cnn_small_categorical_policy");
  Assign "clipping_coef" (Float 0.2);
  Assign "optimization_batch_size" (Int 20);
  Assign "clip_grad_norm" (Float 0.5) ].

Definition ppo_atari_base : M heap loc :=
  derive ppo_discrete_action_base ppo_atari_base_body.

Definition ppo_original_params_body : list stmt := [
  Assign "learning_rate_constant" (Float 2.5e-4);
  Assign "gae_gamma" (Float 0.99);
  Assign "gae_lambda" (Float 0.95);
  Assign "clipping_coef" (Float 0.1);
  Assign "value_loss_coef" (Int 1);
  Assign "entropy_loss_coef" (Float 0.01);
  Assign "eval_every_epochs" (Int 200);
  Assign "dropout_ppo" (Float 0.1);
  Assign "epoch_length" (Int 50);
  Assign "optimization_batch_size" (Int 20) ].

Definition ppo_original_params : M heap loc :=
  derive ppo_atari_base ppo_original_params_body.

Definition ppo_pong_ae_base_body : list stmt := [
  Assign "learning_rate_constant" (Float 1e-4);
  Assign "network" (Str "dense_bitwise_categorical_policy") ].

Definition ppo_pong_ae_base : M heap loc :=
  derive ppo_original_params ppo_pong_ae_base_body.

Definition dqn_atari_base : M heap loc := new_HParams [
  ("agent_gamma", Float 0.99);
  ("agent_update_horizon", Int 1);
  ("agent_min_replay_history", Int 20000);
  ("agent_update_period", Int 4);
  ("agent_target_update_period", Int 8000);
  ("agent_epsilon_train", Float 0.01);
  ("agent_epsilon_eval", Float 0.001);
  ("agent_epsilon_decay_period", Int 250000);
  ("agent_generates_trainable_dones", Bool true);
  ("optimizer_class", Str "RMSProp");
  ("optimizer_learning_rate", Float 0.00025);
  ("optimizer_decay", Float 0.95);
  ("optimizer_momentum", Float 0.0);
  ("optimizer_epsilon", Float 0.00001);
  ("optimizer_centered", Bool true);
  ("replay_buffer_replay_capacity", Int 1000000);
  ("replay_buffer_batch_size", Int 32);
  ("time_limit", Int 27000);
  ("save_every_steps", Int 50000);
  ("num_frames", Int 20000000) ].

Definition dqn_original_params_body : list stmt := [
  SetHparam "num_frames" (Int 1000000) ].

Definition dqn_original_params : M heap loc :=
  derive dqn_atari_base dqn_original_params_body.

Definition rlmf_original : M heap loc := new_HParams [
  ("game", Str "pong");
  ("base_algo", Str "ppo");
  ("base_algo_params", Str "ppo_original_params");
  ("batch_size", Int 16);
  ("eval_batch_size", Int 2);
  ("frame_stack_size", Int 4);
  ("eval_sampling_temps", FloatList [0.0; 0.2; 0.5; 0.8; 1.0; 2.0]%Q);
  ("eval_max_num_noops", Int 8);
  ("resize_height_factor", Int 2);
  ("resize_width_factor", Int 2);
  ("grayscale", Int 0);
  ("rl_env_max_episode_steps", Int (-1)) ].

Definition rlmf_base_body : list stmt := [
  AddHparam "ppo_epochs_num" (Int 3000);
  AddHparam "ppo_eval_every_epochs" (Int 100) ].

Definition rlmf_base : M heap loc := derive rlmf_original rlmf_base_body.

Definition rlmf_tiny_body : list stmt := [
  Assign "ppo_epochs_num" (Int 100);
  Assign "ppo_eval_every_epochs" (Int 10) ].

Definition rlmf_tiny : M heap loc := derive rlmf_base rlmf_tiny_body.

(** Every preset of the module that starts from another one, with its base
    and the statements it runs on the base's result. *)
Definition derived_presets : list (M heap loc * M heap loc * list stmt) := [
  (ppo_base_v1, basic_params1, ppo_base_v1_body);
  (ppo_discrete_action_base, ppo_base_v1, ppo_discrete_action_base_body);
  (discrete_random_action_base, basic_params1, discrete_random_action_base_body);
  (ppo_atari_base, ppo_discrete_action_base, ppo_atari_base_body);
  (ppo_original_params, ppo_atari_base, ppo_original_params_body);
  (ppo_pong_ae_base, ppo_original_params, ppo_pong_ae_base_body);
  (dqn_original_params, dqn_atari_base, dqn_original_params_body);
  (rlmf_base, rlmf_original, rlmf_base_body);
  (rlmf_tiny, rlmf_base, rlmf_tiny_body) ].

End Presets.

(** A small stand-in for the keyword list of [basic_params1], used to run the
    presets on concrete data. *)
Definition sample_basic_params1_kwargs : list (string * pyval) := [
  ("batch_size", Int 1024);
  ("learning_rate_schedule", Str "legacy");
  ("learning_rate_constant", Float 1.0);
  ("clip_grad_norm", Float 2.0);
  ("dropout", Float 0.2) ].

(** ** Tensors *)

(** A tensor with a fully defined static shape and its entries in row-major
    order.  Scalars are exact rationals. *)
Record Tensor : Type := {
  shape : list nat;
  entries : list Q;
}.

(** A feature mapping: a dict from names to tensors. *)
Abbreviation features_t := (gmap string Tensor).

Definition num_elements (dims : list nat) : nat := foldr Nat.mul 1 dims.

(** [tf.constant(value, shape=dims)] and [tf.zeros(dims)]. *)
Definition tf_constant (value : Q) (dims : list nat) : Tensor :=
  {| shape := dims; entries := replicate (num_elements dims) value |}.

Definition tf_zeros (dims : list nat) : Tensor := tf_constant 0 dims.

(** [tf.reduce_min(t)]: the least entry over every axis.  A tensor without
    entries has none to compare with; [0] stands in there. *)
Definition tf_reduce_min (t : Tensor) : Q :=
  match entries t with
  | [] => 0
  | x :: xs => foldl Qmin x xs
  end.

(** [t - s] and [tf.minimum(t, s)] for a scalar [s], entry by entry. *)
Definition tf_sub_scalar (t : Tensor) (s : Q) : Tensor :=
  {| shape := shape t; entries := (λ x, x - s)%Q <$> entries t |}.

Definition tf_minimum_scalar (t : Tensor) (s : Q) : Tensor :=
  {| shape := shape t; entries := (λ x, Qmin x s) <$> entries t |}.

Definition Qltb (a b : Q) : bool := negb (Qle_bool b a).

(** [value > 0] in Python: numbers compare by value, a bool counts as 0 or
    1, anything else cannot be ordered against an int. *)
Definition py_gt_zero (value : pyval) : outcome bool :=
  match value with
  | Atom (AFloat q) => Ok (Qltb 0 q)
  | Atom (AInt z) => Ok (0 <? z)%Z
  | Atom (ABool b) => Ok b
  | _ => Raise (TypeError "'>' not supported between these operands")
  end.

(** A Python number handed to a float op becomes a float scalar. *)
Definition as_float_scalar (value : pyval) : outcome Q :=
  match value with
  | Atom (AFloat q) => Ok q
  | Atom (AInt z) => Ok (inject_Z z)
  | _ => Raise (TypeError "Expected float32")
  end.

(** The number a Python value stands for, when it is an int or a float. *)
Definition number_value (value : pyval) : option Q :=
  match value with
  | Atom (AFloat q) => Some q
  | Atom (AInt z) => Some (inject_Z z)
  | _ => None
  end.

Definition clip_logits (logits : Tensor) (config : HParams) : outcome Tensor :=
  let logits_clip := getattr_default config "logits_clip" (Float 0.0) in
  positive ← py_gt_zero logits_clip;
  if positive : bool then
    let min_logit := tf_reduce_min logits in
    threshold ← as_float_scalar logits_clip;
    mret (tf_minimum_scalar (tf_sub_scalar logits min_logit) threshold)
  else
    mret logits.

(** ** The graph under construction *)

(** The [reuse] flag of a variable scope: unset, [True], [tf.AUTO_REUSE]. *)
Inductive reuse_mode : Type := NoReuse | Reuse | AutoReuse.

(** What this module's own calls see of the TensorFlow graph: the current
    variable scope (its name prefix and reuse flag) and the variables made
    with [tf.get_variable], by full name, with their shapes. *)
Record graph : Type := {
  scope : string;
  reuse : reuse_mode;
  variables : gmap string (list nat);
}.

Definition shape_eqb (a b : list nat) : bool := bool_decide (a = b).

(** [tf.get_variable(name, shape)] in the current scope: without reuse an
    existing name is an error, under [reuse=True] a missing one is, and a
    shared variable must have the shape asked for. *)
Definition get_variable (name : string) (dims : list nat) : M graph string := λ g,
  let full := scope g +:+ name in
  match variables g !! full, reuse g with
  | Some _, NoReuse =>
      (Raise (ValueError ("Variable " +:+ full +:+ " already exists, disallowed.")), g)
  | Some dims', _ =>
      if shape_eqb dims dims' then (Ok full, g)
      else (Raise (ValueError ("Trying to share variable " +:+ full
                               +:+ ", but specified shape differs.")), g)
  | None, Reuse =>
      (Raise (ValueError ("Variable " +:+ full +:+ " does not exist.")), g)
  | None, _ =>
      (Ok full, {| scope := scope g; reuse := reuse g;
                   variables := <[full := dims]> (variables g) |})
  end.

Definition leave_scope (outer : graph) (inner : graph) : graph :=
  {| scope := scope outer; reuse := reuse outer; variables := variables inner |}.

(** [with tf.variable_scope(name): body]: the name extends the prefix, the
    reuse flag is inherited, and the outer scope is back afterwards, also
    when [body] raises. *)
Definition variable_scope {A} (name : string) (body : M graph A) : M graph A := λ g,
  let inner := {| scope := scope g +:+ name +:+ "/"; reuse := reuse g;
                  variables := variables g |} in
  let '(r, g') := body inner in
  (r, leave_scope g g').

(** [with tf.variable_scope(tf.get_variable_scope(), reuse=flag): body]. *)
Definition variable_scope_reuse {A} (flag : reuse_mode) (body : M graph A)
    : M graph A := λ g,
  let inner := {| scope := scope g; reuse := flag; variables := variables g |} in
  let '(r, g') := body inner in
  (r, leave_scope g g').

(** ** Tensor operations *)

Inductive activation : Type := relu | tanh | belu | linear.

(** The numerics TensorFlow supplies.  A layer is named by the variable
    scope that holds its weights and gives the entries of its output; the
    shapes are computed here. *)
Class Backend : Type := {
  (* a fully connected layer: scope, activation, input, number of outputs *)
  dense_entries : string → activation → Tensor → nat → list Q;
  (* a 2-D convolution: scope, activation, input, filters, kernel, strides *)
  conv2d_entries : string → activation → Tensor → nat → nat * nat → nat * nat → list Q;
  (* the random mask of [tf.nn.dropout] on a tensor, for a keep probability *)
  dropout_entries : Tensor → Q → list Q;
  (* the value a variable holds, by full name *)
  variable_entries : string → list Q;
  exp_entry : Q → Q;
  (* [discretization.int_to_bit_embed(x, num_bits, embedding_size)] *)
  int_to_bit_embed : Tensor → nat → nat → Tensor;
}.

(** TensorFlow's default scope names: [base], [base_1], [base_2], ... *)
Definition default_name (base : string) (k : nat) : string :=
  match k with
  | O => base
  | _ => base +:+ "_" +:+ pretty k
  end.

(** Python [l[i]] on a list of dimensions. *)
Definition list_index (l : list nat) (i : nat) : outcome nat :=
  match l !! i with
  | Some d => Ok d
  | None => Raise IndexError
  end.

(** [d[key]] on a dict keyed by strings. *)
Definition getitem {V} (d : gmap string V) (key : string) : outcome V :=
  match d !! key with
  | Some v => Ok v
  | None => Raise (KeyError key)
  end.

(** [obj.name] on an HParams instance. *)
Definition getattr (hp : HParams) (name : string) : outcome pyval :=
  match hp_attrs hp !! name with
  | Some v => Ok v
  | None => Raise (AttributeError name)
  end.

(** [tf.shape(t)[i]] while the graph is built: the axis must exist. *)
Definition tf_shape_at (t : Tensor) (i : nat) : outcome nat :=
  match shape t !! i with
  | Some d => Ok d
  | None => Raise (ValueError "slice index out of bounds")
  end.

(** [tf.reshape(t, dims)], where [None] stands for the one [-1] allowed. *)
Definition tf_reshape (t : Tensor) (dims : list (option nat)) : outcome Tensor :=
  let total := num_elements (shape t) in
  let known := num_elements (omap id dims) in
  match length (filter (λ d, d = None) dims) with
  | 0 =>
      if total =? known then Ok {| shape := omap id dims; entries := entries t |}
      else Raise (ValueError "Cannot reshape a tensor to this shape")
  | 1 =>
      if (known =? 0) || negb (total mod known =? 0)
      then Raise (ValueError "Cannot reshape a tensor to this shape")
      else Ok {| shape := (λ d, default (total / known) d) <$> dims;
                 entries := entries t |}
  | _ => Raise (ValueError "Only one input size may be -1")
  end.

Fixpoint every_nth (n i pos : nat) (xs : list Q) : list Q :=
  match xs with
  | [] => []
  | x :: rest =>
      (if pos mod n =? i then [x] else []) ++ every_nth n i (S pos) rest
  end.

(** [t[..., 0]]: entry 0 along the last axis. *)
Definition tf_index_last_0 (t : Tensor) : outcome Tensor :=
  match last (shape t) with
  | None => Raise (ValueError "Index out of range")
  | Some 0 => Raise (ValueError "slice index 0 of dimension out of bounds")
  | Some n => Ok {| shape := removelast (shape t);
                    entries := every_nth n 0 0 (entries t) |}
  end.

(** [tf.to_float(t) / s]. *)
Definition tf_div_scalar (t : Tensor) (s : Q) : Tensor :=
  {| shape := shape t; entries := (λ x, x / s)%Q <$> entries t |}.

Definition replace_last (dims : list nat) (n : nat) : list nat :=
  removelast dims ++ [n].

(** The sizes in a [policy_layers]-like hparam. *)
Definition as_sizes (value : pyval) : outcome (list nat) :=
  let size (a : atom) : outcome nat :=
    match a with
    | AInt z => Ok (Z.to_nat z)
    | _ => Raise (TypeError "layer size must be an integer")
    end in
  match value with
  | PyTuple items | PyList items => mapM size items
  | Atom _ => Raise (TypeError "object is not iterable")
  end.

Section Networks.

Context {backend : Backend}.

(** The output of the fully connected layer whose weights live in the
    variable scope [layer]: the last axis of [x] becomes [n] wide. *)
Definition dense_at (layer : string) (x : Tensor) (n : nat) (act : activation)
    : Tensor :=
  {| shape := replace_last (shape x) n;
     entries := dense_entries layer act x n |}.

(** A layer makes its two variables in a variable scope of its own: the
    weights first, then the biases. *)
Definition layer_variables (layer : string) (weights biases : string * list nat)
    : M graph unit :=
  variable_scope layer (
    get_variable weights.1 weights.2;;
    get_variable biases.1 biases.2;;
    mret tt).

(** A dense layer wants an input of rank 2 or more and works along its last
    axis. *)
Definition dense_input_width (x : Tensor) : outcome nat :=
  if length (shape x) <? 2
  then Raise (ValueError "Dense layer expects input with rank 2 or more")
  else Ok (default 0 (last (shape x))).

(** A dense layer in the scope [layer] of the current variable scope: its
    variables [kernel] of shape (width, n) and [bias] of shape (n), then its
    output. *)
Definition dense_layer (layer kernel bias : string) (x : Tensor) (n : nat)
    (act : activation) : M graph Tensor :=
  width ← lift (dense_input_width x);
  layer_variables layer (kernel, [width; n]) (bias, [n]);;
  g ← get;
  mret (dense_at (scope g +:+ layer) x n act).

(** [tf.contrib.layers.fully_connected(x, n, activation_fn)] without a scope
    argument: the [k]-th such layer of the current variable scope, with
    variables [weights] and [biases]. *)
Definition fully_connected (k : nat) (x : Tensor) (n : nat) (act : activation)
    : M graph Tensor :=
  dense_layer (default_name "fully_connected" k) "weights" "biases" x n act.

(** [tf.layers.dense(x, n, activation, name)], with variables [kernel] and
    [bias]. *)
Definition dense (name : string) (x : Tensor) (n : nat) (act : activation)
    : M graph Tensor :=
  dense_layer name "kernel" "bias" x n act.

Definition ceil_div (a b : nat) : nat := (a + b - 1) / b.

(** The output shape of a strided 2-D convolution with "SAME" padding. *)
Definition conv2d_shape (dims : list nat) (filters : nat) (strides : nat * nat)
    : list nat :=
  match dims with
  | [b; h; w; _] => [b; ceil_div h strides.1; ceil_div w strides.2; filters]
  | _ => dims
  end.

(** A 2-D convolution wants a batch of images: rank 4. *)
Definition conv2d_at (layer : string) (x : Tensor) (filters : nat)
    (kernel strides : nat * nat) (act : activation) : outcome Tensor :=
  if length (shape x) =? 4 then
    Ok {| shape := conv2d_shape (shape x) filters strides;
          entries := conv2d_entries layer act x filters kernel strides |}
  else Raise (ValueError "Convolution expects input with rank 4").

(** A convolution in the scope [layer] of the current variable scope: the
    rank of the input is checked before any variable is made; the variables
    are [kernel_name] of shape (kernel height, kernel width, channels,
    filters) and [bias_name] of shape (filters). *)
Definition conv2d_layer (layer kernel_name bias_name : string) (x : Tensor)
    (filters : nat) (kernel strides : nat * nat) (act : activation)
    : M graph Tensor := λ g,
  match conv2d_at (scope g +:+ layer) x filters kernel strides act with
  | Raise e => (Raise e, g)
  | Ok y =>
      let channels := default 0 (last (shape x)) in
      (layer_variables layer
         (kernel_name, [kernel.1; kernel.2; channels; filters])
         (bias_name, [filters]);;
       mret y) g
  end.

(** [tf.contrib.layers.conv2d(x, filters, kernel, strides, activation_fn,
    padding="SAME")]: the [k]-th such layer of the current scope, with
    variables [weights] and [biases]. *)
Definition contrib_conv2d (k : nat) (x : Tensor) (filters : nat)
    (kernel strides : nat * nat) (act : activation) : M graph Tensor :=
  conv2d_layer (default_name "Conv" k) "weights" "biases" x filters kernel
    strides act.

(** [tf.layers.conv2d(x, filters, kernel, strides, name, activation,
    padding="SAME")], with variables [kernel] and [bias]. *)
Definition layers_conv2d (name : string) (x : Tensor) (filters : nat)
    (kernel strides : nat * nat) (act : activation) : M graph Tensor :=
  conv2d_layer name "kernel" "bias" x filters kernel strides act.

(** [tf.nn.dropout(x, keep_prob)]: the probability must lie in (0, 1], and
    at 1 nothing is dropped. *)
Definition tf_nn_dropout (x : Tensor) (keep_prob : Q) : outcome Tensor :=
  if negb (Qltb 0 keep_prob && Qle_bool keep_prob 1) then
    Raise (ValueError "keep_prob must be in the range (0, 1]")
  else if Qeq_bool keep_prob 1 then Ok x
  else Ok {| shape := shape x; entries := dropout_entries x keep_prob |}.

(** Modelled from the spec: [common_layers.shape_list] (tensor2tensor/layers
    is not part of this module) gives the dimensions of a tensor as a Python
    list; "action count is derived from the shape of a provided target-action
    placeholder". *)
Definition shape_list (t : Tensor) : list nat := shape t.

(** [DiscretePolicyBase._get_num_actions]. *)
Definition _get_num_actions (features : features_t) : outcome nat :=
  target_action ← getitem features "target_action";
  list_index (shape_list target_action) 2.

(** [{"target_action": logits, "target_value": value}]. *)
Definition outputs (logits value : Tensor) : features_t :=
  {[ "target_action" := logits; "target_value" := value ]}.

(** [for size in sizes: x = fully_connected(x, size, relu)], the layers
    numbered from [k] on. *)
Fixpoint dense_stack (k : nat) (x : Tensor) (sizes : list nat) : M graph Tensor :=
  match sizes with
  | [] => mret x
  | size :: rest =>
      x' ← fully_connected k x size relu;
      dense_stack (S k) x' rest
  end.

(** [tf.reshape(observations, [tf.shape(observations)[0],
    tf.shape(observations)[1], reduce(mul, shape[2:], 1)])]. *)
Definition flatten_observations (observations : Tensor) : outcome Tensor :=
  d0 ← tf_shape_at observations 0;
  d1 ← tf_shape_at observations 1;
  tf_reshape observations
    [Some d0; Some d1; Some (num_elements (drop 2 (shape observations)))].

Definition FeedForwardCategoricalPolicy_body (hparams : HParams)
    (features : features_t) : M graph features_t :=
  observations ← lift (getitem features "inputs");
  flat_observations ← lift (flatten_observations observations);
  logits ← variable_scope "policy" (
    policy_layers ← lift (getattr hparams "policy_layers" ≫= as_sizes);
    x ← dense_stack 0 flat_observations policy_layers;
    num_actions ← lift (_get_num_actions features);
    fully_connected (length policy_layers) x num_actions linear);
  value ← variable_scope "value" (
    value_layers ← lift (getattr hparams "value_layers" ≫= as_sizes);
    x ← dense_stack 0 flat_observations value_layers;
    v ← fully_connected (length value_layers) x 1 linear;
    lift (tf_index_last_0 v));
  logits ← lift (clip_logits logits hparams);
  mret (outputs logits value).

(** [1.0 - dropout] for the hparam [dropout_ppo]. *)
Definition keep_prob_of (dropout : pyval) : outcome Q :=
  match number_value dropout with
  | Some d => Ok (1.0 - d)%Q
  | None => Raise (TypeError "unsupported operand type(s) for -")
  end.

(** [tf.reshape(x, [obs_shape[0], obs_shape[1], reduce(mul, x.shape[1:], 1)])]. *)
Definition flatten_per_step (obs_shape : list nat) (x : Tensor) : outcome Tensor :=
  d0 ← list_index obs_shape 0;
  d1 ← list_index obs_shape 1;
  tf_reshape x [Some d0; Some d1; Some (num_elements (drop 1 (shape x)))].

Definition FeedForwardCnnSmallCategoricalPolicy_body (hparams : HParams)
    (features : features_t) : M graph features_t :=
  observations ← lift (getitem features "inputs");
  let obs_shape := shape_list observations in
  x ← lift (tf_reshape observations (None :: (Some <$> drop 2 obs_shape)));
  let dropout := getattr_default hparams "dropout_ppo" (Float 0.0) in
  variable_scope "feed_forward_cnn_small" (
    let x := tf_div_scalar x 255.0 in
    x ← contrib_conv2d 0 x 32 (5, 5) (2, 2) relu;
    x ← contrib_conv2d 1 x 32 (5, 5) (2, 2) relu;
    flat_x ← lift (flatten_per_step obs_shape x);
    keep_prob ← lift (keep_prob_of dropout);
    flat_x ← lift (tf_nn_dropout flat_x keep_prob);
    x ← fully_connected 0 flat_x 128 relu;
    num_actions ← lift (_get_num_actions features);
    logits ← fully_connected 1 x num_actions linear;
    logits ← lift (clip_logits logits hparams);
    v ← fully_connected 2 x 1 linear;
    value ← lift (tf_index_last_0 v);
    mret (outputs logits value)).

Definition FeedForwardCnnSmallCategoricalPolicyNew_body (hparams : HParams)
    (features : features_t) : M graph features_t :=
  observations ← lift (getitem features "inputs");
  let obs_shape := shape_list observations in
  x ← lift (tf_reshape observations (None :: (Some <$> drop 2 obs_shape)));
  let dropout := getattr_default hparams "dropout_ppo" (Float 0.0) in
  variable_scope "feed_forward_cnn_small" (
    let x := tf_div_scalar x 255.0 in
    keep_prob ← lift (keep_prob_of dropout);
    x ← lift (tf_nn_dropout x keep_prob);
    x ← layers_conv2d "conv1" x 32 (4, 4) (2, 2) belu;
    keep_prob ← lift (keep_prob_of dropout);
    x ← lift (tf_nn_dropout x keep_prob);
    x ← layers_conv2d "conv2" x 64 (4, 4) (2, 2) belu;
    keep_prob ← lift (keep_prob_of dropout);
    x ← lift (tf_nn_dropout x keep_prob);
    x ← layers_conv2d "conv3" x 128 (4, 4) (2, 2) belu;
    flat_x ← lift (flatten_per_step obs_shape x);
    keep_prob ← lift (keep_prob_of dropout);
    flat_x ← lift (tf_nn_dropout flat_x keep_prob);
    x ← dense "dense1" flat_x 128 relu;
    num_actions ← lift (_get_num_actions features);
    logits ← dense "dense2" x num_actions linear;
    logits ← lift (clip_logits logits hparams);
    v ← dense "value" x 1 linear;
    value ← lift (tf_index_last_0 v);
    mret (outputs logits value)).

Definition DenseBitwiseCategoricalPolicy_body (hparams : HParams)
    (features : features_t) : M graph features_t :=
  observations ← lift (getitem features "inputs");
  let obs_shape := shape_list observations in
  x ← lift (tf_reshape observations (None :: (Some <$> drop 2 obs_shape)));
  variable_scope "dense_bitwise" (
    let x := int_to_bit_embed x 8 32 in
    flat_x ← lift (flatten_per_step obs_shape x);
    x ← fully_connected 0 flat_x 256 relu;
    x ← fully_connected 1 flat_x 128 relu;
    num_actions ← lift (_get_num_actions features);
    logits ← fully_connected 2 x num_actions linear;
    v ← fully_connected 3 x 1 linear;
    value ← lift (tf_index_last_0 v);
    mret (outputs logits value)).

(** [1. / float(num_actions)]. *)
Definition py_reciprocal (num_actions : nat) : outcome Q :=
  match num_actions with
  | O => Raise ZeroDivisionError
  | _ => Ok (1 / inject_Z (Z.of_nat num_actions))%Q
  end.

Definition RandomPolicy_body (hparams : HParams) (features : features_t)
    : M graph features_t :=
  observations ← lift (getitem features "inputs");
  let obs_shape := shape observations in
  (* Just so Saver doesn't complain because of no variables. *)
  get_variable "dummy_var" [];;
  num_actions ← lift (_get_num_actions features);
  uniform ← lift (py_reciprocal num_actions);
  let logits := tf_constant uniform (take 2 obs_shape ++ [num_actions]) in
  let value := tf_zeros (take 2 obs_shape) in
  mret (outputs logits value).

End Networks.

(** ** Action spaces and the policy factory *)

(** The [gym.spaces] classes. *)
Inductive space : Type :=
  | Discrete (n : nat)
  | Box (dims : list nat)
  | MultiDiscrete (nvec : list nat)
  | MultiBinary (n : nat).

(** [isinstance(action_space, gym.spaces.Discrete)]. *)
Definition isinstance_Discrete (action_space : space) : bool :=
  match action_space with Discrete _ => true | _ => false end.

(** [isinstance(action_space, gym.spaces.box.Box)]. *)
Definition isinstance_Box (action_space : space) : bool :=
  match action_space with Box _ => true | _ => false end.

(** [action_space.n]. *)
Definition space_n (action_space : space) : outcome nat :=
  match action_space with
  | Discrete n | MultiBinary n => Ok n
  | _ => Raise (AttributeError "n")
  end.

(** [action_space.shape]. *)
Definition space_shape (action_space : space) : list nat :=
  match action_space with
  | Discrete _ => []
  | Box dims => dims
  | MultiDiscrete nvec => [length nvec]
  | MultiBinary n => [n]
  end.

(** What a registered model class contributes here: its [body]. *)
Definition model_body : Type := HParams → features_t → M graph features_t.

(** Modelled from the spec: [registry.model] (tensor2tensor/utils/registry.py
    is not part of this module).  Model classes "register themselves under
    stable string names at module load time, and are retrievable by that
    name"; a name nobody registered is a [LookupError]. *)
Definition registry_model (registry : gmap string model_body) (name : pyval)
    : outcome model_body :=
  match name with
  | Atom (AStr s) =>
      match registry !! s with
      | Some m => Ok m
      | None => Raise (LookupError ("Model " +:+ s +:+ " never registered."))
      end
  | _ => Raise (LookupError "Model never registered.")
  end.

(** Modelled from the spec: calling a [T2TModel] (tensor2tensor/utils/
    t2t_model.py is not part of this module).  "Each network body implements
    a single method mapping a feature mapping to an output mapping"; the call
    runs that body on the features and gives back its output mapping. *)
Definition model_call (body : model_body) (hparams : HParams)
    (features : features_t) : M graph features_t :=
  body hparams features.

(** [get_policy] once the action space has been accepted. *)
Definition build_policy (registry : gmap string model_body)
    (observations : Tensor) (hparams : HParams) (action_space : space)
    : M graph (Tensor * Tensor) :=
  body ← lift (getattr hparams "policy_network" ≫= registry_model registry);
  let obs_shape := shape_list observations in
  n ← lift (space_n action_space);
  let features : features_t :=
    {[ "inputs" := observations;
       "target_action" := tf_zeros (take 2 obs_shape ++ [n]);
       "target_value" := tf_zeros (take 2 obs_shape) ]} in
  targets ← variable_scope_reuse AutoReuse (model_call body hparams features);
  target_action ← lift (getitem targets "target_action");
  target_value ← lift (getitem targets "target_value");
  mret (target_action, target_value).

Definition get_policy (registry : gmap string model_body)
    (observations : Tensor) (hparams : HParams) (action_space : space)
    : M graph (Tensor * Tensor) :=
  if negb (isinstance_Discrete action_space) then
    raise (ValueError "Expecting discrete action space.")
  else build_policy registry observations hparams action_space.

(** ** The Gaussian policy *)

(** [tfp.distributions.MultivariateNormalDiag(loc, scale_diag)]. *)
Record MultivariateNormalDiag : Type := {
  loc_ : Tensor;
  scale_diag : Tensor;
}.

Record NetworkOutput : Type := {
  policy : MultivariateNormalDiag;
  value : Tensor;
  action_postprocessing : Tensor → Tensor;
}.

(** [tf.clip_by_value(t, lo, hi)]. *)
Definition tf_clip_by_value (t : Tensor) (lo hi : Q) : Tensor :=
  {| shape := shape t; entries := (λ x, Qmax (Qmin x hi) lo) <$> entries t |}.

Section Gaussian.

Context {backend : Backend}.

(** [tf.tile(logstd[None, None], [tf.shape(mean)[0], tf.shape(mean)[1]] +
    [1] * (mean.shape.ndims - 2))] for the variable [logstd]. *)
Definition tile_over_batch (variable : string) (dims : list nat) (mean : Tensor)
    : outcome Tensor :=
  d0 ← tf_shape_at mean 0;
  d1 ← tf_shape_at mean 1;
  mret {| shape := d0 :: d1 :: dims;
          entries := mjoin (replicate (d0 * d1) (variable_entries variable)) |}.

Definition tf_exp (t : Tensor) : Tensor :=
  {| shape := shape t; entries := exp_entry <$> entries t |}.

(** [feed_forward_gaussian_fun] once the action space has been accepted. *)
Definition build_gaussian (action_space : space) (config : HParams)
    (observations : Tensor) : M graph NetworkOutput :=
  _ ← lift (getattr config "init_mean_factor");
  _ ← lift (getattr config "init_logstd");
  flat_observations ← lift (flatten_observations observations);
  '(mean, logstd, value) ← variable_scope "network_parameters" (
    '(mean, logstd) ← variable_scope "policy" (
      policy_layers ← lift (getattr config "policy_layers" ≫= as_sizes);
      x ← dense_stack 0 flat_observations policy_layers;
      n ← lift (list_index (space_shape action_space) 0);
      mean ← fully_connected (length policy_layers) x n tanh;
      logstd ← get_variable "logstd" (drop 2 (shape mean));
      logstd ← lift (tile_over_batch logstd (drop 2 (shape mean)) mean);
      mret (mean, logstd));
    value ← variable_scope "value" (
      value_layers ← lift (getattr config "value_layers" ≫= as_sizes);
      x ← dense_stack 0 flat_observations value_layers;
      v ← fully_connected (length value_layers) x 1 linear;
      lift (tf_index_last_0 v));
    mret (mean, logstd, value));
  let policy := {| loc_ := mean; scale_diag := tf_exp logstd |} in
  mret {| policy := policy; value := value;
          action_postprocessing := λ a, tf_clip_by_value a (-2) 2 |}.

Definition feed_forward_gaussian_fun (action_space : space) (config : HParams)
    (observations : Tensor) : M graph NetworkOutput :=
  if negb (isinstance_Box action_space) then
    raise (ValueError "Expecting continuous action space.")
  else build_gaussian action_space config observations.

(** The model classes this module registers, under the names the registry
    derives from the class names. *)
Definition rl_models : gmap string model_body :=
  list_to_map [
    ("feed_forward_categorical_policy", FeedForwardCategoricalPolicy_body);
    ("feed_forward_cnn_small_categorical_policy",
       FeedForwardCnnSmallCategoricalPolicy_body);
    ("feed_forward_cnn_small_categorical_policy_new",
       FeedForwardCnnSmallCategoricalPolicyNew_body);
    ("dense_bitwise_categorical_policy", DenseBitwiseCategoricalPolicy_body);
    ("random_policy", RandomPolicy_body) ].

End Gaussian.

(** ** Environment factories *)

(** Modelled from the spec: the constructor of [PyFuncBatchEnv]
    (tensor2tensor/rl/envs/py_func_batch_env.py is not part of this module).
    It "wraps [env] in an adapter suitable for in-graph stepping", and
    "wrapping must be side-effect-free and repeatable": each call allocates
    a new adapter that holds the reference to [env] and writes nothing else. *)
Definition PyFuncBatchEnv (env : loc) : M heap loc :=
  alloc (OPyFuncBatchEnv env).

(** [lambda in_graph: PyFuncBatchEnv(env) if in_graph else env]. *)
Definition make_real_env_fn (env : loc) : bool → M heap loc :=
  λ in_graph, if in_graph then PyFuncBatchEnv env else mret env.

Inductive sim_class : Type := SimulatedBatchEnv | SimulatedBatchGymEnv.

(** The keyword arguments a constructor takes: the ones it requires and the
    ones that have a default. *)
Record signature : Type := {
  required : list string;
  optional : list string;
}.

Definition has_key (kwargs : list (string * loc)) (name : string) : bool :=
  bool_decide (name ∈ kwargs.*1).

Definition accepts (sig : signature) (name : string) : bool :=
  bool_decide (name ∈ required sig ++ optional sig).

Definition join_names (names : list string) : string :=
  foldr (λ n acc, "'" +:+ n +:+ "' " +:+ acc) "" names.

(** Binding keywords to a signature, the way a Python call does: the first
    keyword the signature does not know is an error, then any required name
    left without a value is an error. *)
Definition bind_kwargs (sig : signature) (kwargs : list (string * loc))
    : outcome unit :=
  match filter (λ n, accepts sig n = false) kwargs.*1 with
  | unexpected :: _ =>
      Raise (TypeError ("__init__() got an unexpected keyword argument '"
                        +:+ unexpected +:+ "'"))
  | [] =>
      match filter (λ n, has_key kwargs n = false) (required sig) with
      | [] => Ok tt
      | missing =>
          Raise (TypeError ("__init__() missing required arguments: "
                            +:+ join_names missing))
      end
  end.

Definition new_simulated (class_ : sim_class) (kwargs : list (string * loc))
    : pyobj :=
  match class_ with
  | SimulatedBatchEnv => OSimulatedBatchEnv kwargs
  | SimulatedBatchGymEnv => OSimulatedBatchGymEnv kwargs
  end.

(** Modelled from the spec: the constructors of [SimulatedBatchEnv] and
    [SimulatedBatchGymEnv] (tensor2tensor/rl/envs is not part of this module).
    "Both variants must accept an identical keyword-argument contract", so
    the two classes share one signature; a keyword set that does not fit is
    "a programming error to be caught early (construction-time failure, not
    silent misbehavior)".  A call binds the keywords to the signature and,
    when they fit, allocates the environment. *)
Definition construct (sig : signature) (class_ : sim_class)
    (kwargs : list (string * loc)) : M heap loc :=
  lift (S:=heap) (bind_kwargs sig kwargs);;
  alloc (new_simulated class_ kwargs).

Definition make_simulated_env_fn (sig : signature)
    (env_kwargs : list (string * loc)) : bool → M heap loc :=
  let env_fn (in_graph : bool) :=
    let class_ := if in_graph then SimulatedBatchEnv else SimulatedBatchGymEnv in
    construct sig class_ env_kwargs in
  env_fn.

(** ** Sample data for running the model *)

Definition empty_graph : graph :=
  {| scope := ""; reuse := NoReuse; variables := ∅ |}.

(** The numerics of a network whose weights are all zero. *)
Definition zero_weights : Backend := {|
  dense_entries := λ _ _ x n, replicate (num_elements (replace_last (shape x) n)) 0%Q;
  conv2d_entries := λ _ _ x filters _ strides,
    replicate (num_elements (conv2d_shape (shape x) filters strides)) 0%Q;
  dropout_entries := λ x _, entries x;
  variable_entries := λ _, [];
  exp_entry := λ _, 1%Q;
  int_to_bit_embed := λ x _ size, tf_zeros (replace_last (shape x) size);
|}.

(** The same, except that the layer in scope [layer] gives ones. *)
Definition ones_in_layer (layer : string) : Backend := {|
  dense_entries := λ l _ x n,
    replicate (num_elements (replace_last (shape x) n))
              (if bool_decide (l = layer) then 1%Q else 0%Q);
  conv2d_entries := @conv2d_entries zero_weights;
  dropout_entries := @dropout_entries zero_weights;
  variable_entries := @variable_entries zero_weights;
  exp_entry := @exp_entry zero_weights;
  int_to_bit_embed := @int_to_bit_embed zero_weights;
|}.

(** The instance [ppo_original_params] builds over the sample keywords. *)
Definition sample_ppo_hparams : HParams :=
  match ppo_original_params sample_basic_params1_kwargs [] with
  | (Ok _, [OHParams hp]) => hp
  | _ => empty_hparams
  end.

Definition sample_logits : Tensor :=
  {| shape := [1; 2; 3]; entries := [2; -3; 0.5; 7; -1; 4]%Q |}.

Definition sample_config (logits_clip : pyval) : HParams :=
  hp_setattr "logits_clip" logits_clip empty_hparams.

(** A signature of the kind the simulated environments have. *)
Definition sample_signature : signature := {|
  required := ["batch_size"; "model_name"; "model_dir"];
  optional := ["sim_video_dir"];
|}.

Definition sample_features (obs_dims : list nat) (num_actions : nat) : features_t :=
  {[ "inputs" := tf_constant 7 obs_dims;
     "target_action" := tf_zeros (take 2 obs_dims ++ [num_actions]);
     "target_value" := tf_zeros (take 2 obs_dims) ]}.

(** ** Vocabulary for the tensor properties *)

(** The same shape, and entries that are equal as rationals. *)
Definition tensor_equiv (a b : Tensor) : Prop :=
  shape a = shape b ∧ Forall2 Qeq (entries a) (entries b).

(** ** Vocabulary for the preset properties *)

(** [same_fields_but names a b]: outside [names], the instances [a] and [b]
    have the same attributes and the same registered types. *)
Definition same_fields_but (names : list string) (a b : HParams) : Prop :=
  ∀ name, name ∉ names →
    hp_attrs b !! name = hp_attrs a !! name ∧
    hp_types b !! name = hp_types a !! name.

(** [acts_on_self op names]: run on the newest object of the store, [op]
    rewrites that object only, the same way whatever the rest of the store
    holds, and leaves its fields outside [names] alone. *)
Definition acts_on_self (op : loc → M heap unit) (names : list string) : Prop :=
  ∀ hp, ∃ r hp',
    (∀ h, op (length h) (h ++ [OHParams hp]) = (r, h ++ [OHParams hp'])) ∧
    same_fields_but names hp hp'.

(** [builds P r hp]: whatever the store holds, [P] appends one HParams
    instance [hp] to it and touches nothing else; it returns the new reference
    when [r] is [Ok], and raises what [r] raises otherwise. *)
Definition builds (P : M heap loc) (r : outcome unit) (hp : HParams) : Prop :=
  ∀ h, P h = (match r with Ok _ => Ok (length h) | Raise e => Raise e end,
              h ++ [OHParams hp]).

Definition is_preset (P : M heap loc) : Prop := ∃ r hp, builds P r hp.

Definition is_assign (s : stmt) : Prop :=
  match s with Assign _ _ => True | _ => False end.

(** The names a statement list registers with [add_hparam]. *)
Definition added_names (body : list stmt) : list string :=
  omap (λ s, match s with AddHparam name _ => Some name | _ => None end) body.

(** [getattr(hp, name, None) is None]: the test [add_hparam] makes before it
    takes a name. *)
Definition is_free (hp : HParams) (name : string) : bool :=
  is_None (getattr_default hp name ANone).

Definition is_empty_seq (value : pyval) : bool :=
  match value with PyTuple [] | PyList [] => true | _ => false end.

(** A statement list that never calls [set_hparam] and in which every
    [add_hparam] comes with a non-empty value and a name that neither [seen]
    nor an earlier statement of the list has written. *)
Fixpoint adds_fresh (seen : list string) (body : list stmt) : bool :=
  match body with
  | [] => true
  | Assign name _ :: rest => adds_fresh (name :: seen) rest
  | AddHparam name value :: rest =>
      bool_decide (name ∉ seen) && negb (is_empty_seq value)
      && adds_fresh (name :: seen) rest
  | SetHparam _ _ :: _ => false
  end.

(** The presets that start, directly or through other presets, from
    [basic_params1], each with all the statements that run on that instance
    before it is returned, in the order they run. *)
Definition presets_over_basic_params1 (kw : list (string * pyval))
    : list (M heap loc * list stmt) := [
  (ppo_base_v1 kw, ppo_base_v1_body);
  (ppo_discrete_action_base kw,
     ppo_base_v1_body ++ ppo_discrete_action_base_body);
  (discrete_random_action_base kw, discrete_random_action_base_body);
  (ppo_atari_base kw,
     (ppo_base_v1_body ++ ppo_discrete_action_base_body) ++ ppo_atari_base_body);
  (ppo_original_params kw,
     ((ppo_base_v1_body ++ ppo_discrete_action_base_body) ++ ppo_atari_base_body)
     ++ ppo_original_params_body);
  (ppo_pong_ae_base kw,
     (((ppo_base_v1_body ++ ppo_discrete_action_base_body) ++ ppo_atari_base_body)
      ++ ppo_original_params_body) ++ ppo_pong_ae_base_body) ].

(** The PPO presets. *)
Definition ppo_presets (kw : list (string * pyval)) : list (M heap loc) := [
  ppo_base_v1 kw; ppo_discrete_action_base kw; ppo_atari_base kw;
  ppo_original_params kw; ppo_pong_ae_base kw ].

(** The presets that do not go through [basic_params1]. *)
Definition standalone_presets : list (M heap loc) := [
  basic_policy_parameters; dqn_atari_base; dqn_original_params;
  rlmf_original; rlmf_base; rlmf_tiny ].

(** ** Vocabulary for the network properties *)

(** What a policy body hands back: observations of shape (B, T, ...), an
    action count [N] read off "target_action", logits of shape (B, T, N)
    behind the mapping's "target_action" (the output [raw] of the logits
    layer, put through [clip_logits] when the body clips) and a value of
    shape (B, T) behind "target_value". *)
Definition returns_policy (clips : bool) (hparams : HParams)
    (features out : features_t) : Prop :=
  ∃ observations target_action B T rest N raw logits value,
    features !! "inputs" = Some observations ∧
    shape observations = B :: T :: rest ∧
    features !! "target_action" = Some target_action ∧
    shape target_action !! 2 = Some N ∧
    shape raw = [B; T; N] ∧
    (if clips then clip_logits raw hparams = Ok logits else logits = raw) ∧
    shape value = [B; T] ∧
    out = outputs logits value.

(** * Properties *)

(** ** Facts about the store *)

Lemma lookup_snoc (h : heap) (o : pyobj) : (h ++ [o]) !! length h = Some o.
Proof. induction h as [|x h IH]; simpl; [reflexivity | exact IH]. Qed.

Lemma insert_snoc (h : heap) (o o' : pyobj) :
  <[length h := o']> (h ++ [o]) = h ++ [o'].
Proof. induction h as [|x h IH]; simpl; [reflexivity | by rewrite IH]. Qed.

Lemma lookup_snoc_old (h : heap) (o x : pyobj) (l : loc) :
  h !! l = Some x → (h ++ [o]) !! l = Some x.
Proof. intros H. by apply lookup_app_l_Some. Qed.

Lemma same_fields_refl names a : same_fields_but names a a.
Proof. by intros name _. Qed.

Lemma same_fields_trans n1 n2 a b c :
  same_fields_but n1 a b → same_fields_but n2 b c →
  same_fields_but (n1 ++ n2) a c.
Proof.
  intros Hab Hbc name Hn.
  destruct (Hab name) as [Ha Ht]; [set_solver|].
  destruct (Hbc name) as [Ha' Ht']; [set_solver|].
  split; congruence.
Qed.

Lemma same_fields_write name value ty a :
  same_fields_but [name] a (hp_setattr name value (hp_settype name ty a)).
Proof.
  intros n Hn. assert (name ≠ n) by set_solver.
  simpl. by rewrite !lookup_insert_ne.
Qed.

Lemma same_fields_setattr name value a :
  same_fields_but [name] a (hp_setattr name value a).
Proof.
  intros n Hn. assert (name ≠ n) by set_solver.
  simpl. by rewrite lookup_insert_ne.
Qed.

Ltac run_on_self :=
  unfold mbind, M_bind, load_hparams, store_hparams, raise, lift;
  repeat (rewrite ?lookup_snoc, ?insert_snoc; simpl).

Lemma setattr_on_self name value :
  acts_on_self (λ self, setattr self name value) [name].
Proof.
  intros hp. exists (Ok tt), (hp_setattr name value hp). split.
  - intros h. unfold setattr. by run_on_self.
  - apply same_fields_setattr.
Qed.

Lemma add_hparam_on_self name value :
  acts_on_self (λ self, add_hparam self name value) [name].
Proof.
  intros hp. unfold add_hparam.
  destruct (negb (is_None (getattr_default hp name ANone))) eqn:Hres.
  { eexists _, hp. split; [|apply same_fields_refl].
    intros h. run_on_self. by rewrite Hres. }
  destruct value as [v|[|v0 items]|[|v0 items]].
  all: eexists _, _; split;
    [ intros h; run_on_self; rewrite Hres; run_on_self; reflexivity
    | first [apply same_fields_write | apply same_fields_refl] ].
Qed.

Lemma set_hparam_on_self name value :
  acts_on_self (λ self, set_hparam self name value) [name].
Proof.
  intros hp. unfold set_hparam.
  destruct (hp_types hp !! name) as [[param_type is_list]|] eqn:Hty.
  2:{ eexists _, hp. split; [|apply same_fields_refl].
      intros h. run_on_self. by rewrite Hty. }
  destruct value as [v|items|items].
  - destruct is_list.
    + eexists _, hp. split; [|apply same_fields_refl].
      intros h. run_on_self. by rewrite Hty.
    + destruct (cast_to_type_if_compatible name param_type v) as [v'|e] eqn:Hc.
      * eexists _, _. split; [|apply (same_fields_setattr name (Atom v'))].
        intros h. run_on_self. rewrite Hty. run_on_self. rewrite Hc.
        by run_on_self.
      * eexists _, hp. split; [|apply same_fields_refl].
        intros h. run_on_self. rewrite Hty. run_on_self. by rewrite Hc.
  - destruct is_list.
    + eexists _, hp. split; [|apply same_fields_refl].
      intros h. run_on_self. by rewrite Hty.
    + destruct param_type.
      1:{ eexists _, _. split; [|apply (same_fields_setattr name (PyTuple items))].
          intros h. run_on_self. rewrite Hty. by run_on_self. }
      all: eexists _, hp; split; [|apply same_fields_refl];
        intros h; run_on_self; by rewrite Hty.
  - destruct is_list.
    + destruct (cast_all name param_type items) as [items'|e] eqn:Hc.
      * eexists _, _. split; [|apply (same_fields_setattr name (PyList items'))].
        intros h. run_on_self. rewrite Hty. run_on_self. rewrite Hc.
        by run_on_self.
      * eexists _, hp. split; [|apply same_fields_refl].
        intros h. run_on_self. rewrite Hty. run_on_self. by rewrite Hc.
    + eexists _, hp. split; [|apply same_fields_refl].
      intros h. run_on_self. by rewrite Hty.
Qed.

Lemma exec_on_self s : acts_on_self (λ self, exec self s) [stmt_name s].
Proof.
  destruct s; simpl.
  - apply setattr_on_self.
  - apply add_hparam_on_self.
  - apply set_hparam_on_self.
Qed.

Lemma exec_all_on_self body :
  acts_on_self (λ self, exec_all self body) (stmt_name <$> body).
Proof.
  induction body as [|s body IH]; intros hp.
  - exists (Ok tt), hp. split; [done | apply same_fields_refl].
  - destruct (exec_on_self s hp) as (r1 & hp1 & Hrun1 & Hsame1).
    destruct r1 as [[]|e].
    + destruct (IH hp1) as (r2 & hp2 & Hrun2 & Hsame2).
      exists r2, hp2. split.
      * intros h. simpl. unfold mbind, M_bind. by rewrite Hrun1, Hrun2.
      * change (stmt_name <$> s :: body)
          with ([stmt_name s] ++ (stmt_name <$> body)).
        by apply (same_fields_trans _ _ hp hp1 hp2).
    + exists (Raise e), hp1. split.
      * intros h. simpl. unfold mbind, M_bind. by rewrite Hrun1.
      * intros name Hn. apply Hsame1. intros Hin. apply Hn.
        apply list_elem_of_singleton in Hin as ->. simpl. left.
Qed.

Lemma builds_fun P r1 hp1 r2 hp2 :
  builds P r1 hp1 → builds P r2 hp2 → r1 = r2 ∧ hp1 = hp2.
Proof.
  intros H1 H2. specialize (H1 []). specialize (H2 []).
  rewrite H1 in H2. simpl in H2.
  destruct r1 as [[]|e1], r2 as [[]|e2]; by simplify_eq.
Qed.

Lemma builds_ok_inv P r hp h l h' :
  builds P r hp → P h = (Ok l, h') →
  r = Ok tt ∧ l = length h ∧ h' = h ++ [OHParams hp].
Proof.
  intros HP Hrun. rewrite (HP h) in Hrun.
  destruct r as [[]|e]; by simplify_eq.
Qed.

Lemma add_hparams_on_self kwargs :
  acts_on_self (λ self, add_hparams self kwargs) (kwargs.*1).
Proof.
  induction kwargs as [|[name value] kwargs IH]; intros hp.
  - exists (Ok tt), hp. split; [done | apply same_fields_refl].
  - destruct (add_hparam_on_self name value hp) as (r1 & hp1 & Hrun1 & Hsame1).
    destruct r1 as [[]|e].
    + destruct (IH hp1) as (r2 & hp2 & Hrun2 & Hsame2).
      exists r2, hp2. split.
      * intros h. simpl. unfold mbind, M_bind. by rewrite Hrun1, Hrun2.
      * change (((name, value) :: kwargs).*1) with ([name] ++ kwargs.*1).
        by apply (same_fields_trans _ _ hp hp1 hp2).
    + exists (Raise e), hp1. split.
      * intros h. simpl. unfold mbind, M_bind. by rewrite Hrun1.
      * intros n Hn. apply Hsame1. intros Hin. apply Hn.
        apply list_elem_of_singleton in Hin as ->. simpl. left.
Qed.

Lemma new_HParams_is_preset kwargs : is_preset (new_HParams kwargs).
Proof.
  destruct (add_hparams_on_self kwargs empty_hparams) as (r & hp & Hrun & _).
  exists r, hp. intros h. unfold new_HParams, alloc, mbind, M_bind.
  rewrite Hrun. by destruct r as [[]|e].
Qed.

Lemma derive_builds B body rB hpB :
  builds B rB hpB →
  ∃ r hp, builds (derive B body) r hp ∧
    same_fields_but (stmt_name <$> body) hpB hp ∧
    (r = Ok tt → rB = Ok tt ∧
       ∀ h, exec_all (length h) body (h ++ [OHParams hpB])
            = (Ok tt, h ++ [OHParams hp])).
Proof.
  intros HB. destruct rB as [[]|e].
  - destruct (exec_all_on_self body hpB) as (r & hp & Hrun & Hsame).
    exists r, hp. split; [|split].
    + intros h. unfold derive, mbind, M_bind. rewrite (HB h), Hrun.
      by destruct r as [[]|e].
    + exact Hsame.
    + intros ->. split; [done | exact Hrun].
  - exists (Raise e), hpB. split; [|split].
    + intros h. unfold derive, mbind, M_bind. by rewrite (HB h).
    + apply same_fields_refl.
    + discriminate.
Qed.

Lemma derive_is_preset B body : is_preset B → is_preset (derive B body).
Proof.
  intros (rB & hpB & HB).
  destruct (derive_builds B body rB hpB HB) as (r & hp & H & _).
  by exists r, hp.
Qed.

Section PresetFacts.

Variable kw : list (string * pyval).

Lemma basic_params1_is_preset : is_preset (basic_params1 kw).
Proof. apply new_HParams_is_preset. Qed.

Lemma ppo_base_v1_is_preset : is_preset (ppo_base_v1 kw).
Proof. apply derive_is_preset, basic_params1_is_preset. Qed.

Lemma ppo_discrete_action_base_is_preset : is_preset (ppo_discrete_action_base kw).
Proof. apply derive_is_preset, ppo_base_v1_is_preset. Qed.

Lemma ppo_atari_base_is_preset : is_preset (ppo_atari_base kw).
Proof. apply derive_is_preset, ppo_discrete_action_base_is_preset. Qed.

Lemma ppo_original_params_is_preset : is_preset (ppo_original_params kw).
Proof. apply derive_is_preset, ppo_atari_base_is_preset. Qed.

Lemma dqn_atari_base_is_preset : is_preset dqn_atari_base.
Proof. apply new_HParams_is_preset. Qed.

Lemma rlmf_original_is_preset : is_preset rlmf_original.
Proof. apply new_HParams_is_preset. Qed.

Lemma rlmf_base_is_preset : is_preset rlmf_base.
Proof. apply derive_is_preset, rlmf_original_is_preset. Qed.

Lemma derived_presets_spec P B body :
  (P, B, body) ∈ derived_presets kw → P = derive B body ∧ is_preset B.
Proof.
  unfold derived_presets. rewrite !elem_of_cons, elem_of_nil.
  intros H. repeat destruct H as [H|H]; try done; simplify_eq; split;
    first [ reflexivity
          | apply basic_params1_is_preset | apply ppo_base_v1_is_preset
          | apply ppo_discrete_action_base_is_preset
          | apply ppo_atari_base_is_preset | apply ppo_original_params_is_preset
          | apply dqn_atari_base_is_preset | apply rlmf_original_is_preset
          | apply rlmf_base_is_preset ].
Qed.

End PresetFacts.

(** ** Presets inherit and never touch older objects *)

(** C3. For every preset [P] of the module that starts from a base preset [B]
    and then writes fields: (1) constructing [P] leaves every object already
    in the store as it was, and the instance it returns is a new one; (2)
    every field that [P]'s statements do not write has, in [P]'s result, the
    value and the registered type that [B] gives it. *)
Theorem preset_inheritance (kw : list (string * pyval))
    (P B : M heap loc) (body : list stmt) :
  (P, B, body) ∈ derived_presets kw →
  (∀ h r h', P h = (r, h') →
     (∀ l o, h !! l = Some o → h' !! l = Some o) ∧
     (∀ l, r = Ok l → h !! l = None ∧ is_Some (h' !! l))) ∧
  (∀ h1 h2 lb hb lp hp,
     B h1 = (Ok lb, hb) → P h2 = (Ok lp, hp) →
     ∃ b p, hb !! lb = Some (OHParams b) ∧ hp !! lp = Some (OHParams p) ∧
       same_fields_but (stmt_name <$> body) b p).
Proof.
  intros Hin. destruct (derived_presets_spec kw P B body Hin) as [-> (rB & hpB & HB)].
  destruct (derive_builds B body rB hpB HB) as (r & hp & HP & Hsame & _).
  split.
  - intros h r' h' Hrun. rewrite (HP h) in Hrun. simplify_eq. split.
    + intros l o Hl. by apply lookup_snoc_old.
    + intros l Hl. destruct r as [[]|e]; simplify_eq. split.
      * by apply lookup_ge_None_2.
      * rewrite lookup_snoc. by eexists.
  - intros h1 h2 lb hb lp hp' HrunB HrunP.
    destruct (builds_ok_inv _ _ _ _ _ _ HB HrunB) as (_ & -> & ->).
    destruct (builds_ok_inv _ _ _ _ _ _ HP HrunP) as (_ & -> & ->).
    exists hpB, hp. by rewrite !lookup_snoc.
Qed.

Lemma preset_inheritance_witness :
  (∀ h r h', dqn_original_params h = (r, h') →
     (∀ l o, h !! l = Some o → h' !! l = Some o) ∧
     (∀ l, r = Ok l → h !! l = None ∧ is_Some (h' !! l))) ∧
  (∀ h1 h2 lb hb lp hp,
     dqn_atari_base h1 = (Ok lb, hb) → dqn_original_params h2 = (Ok lp, hp) →
     ∃ b p, hb !! lb = Some (OHParams b) ∧ hp !! lp = Some (OHParams p) ∧
       same_fields_but (stmt_name <$> dqn_original_params_body) b p).
Proof.
  apply (preset_inheritance [] dqn_original_params dqn_atari_base
           dqn_original_params_body).
  unfold derived_presets. do 6 apply list_elem_of_further. apply list_elem_of_here.
Defined.

(** ** What a statement list leaves in a field *)

(** Closes [name ∉ [n1; ...; nk]] for literal names. *)
Ltac not_in_names :=
  simpl; rewrite ?elem_of_cons, ?elem_of_nil;
  intuition (try discriminate; try congruence).

Lemma exec_all_app self a b h :
  exec_all self (a ++ b) h = (exec_all self a ≫= λ _, exec_all self b) h.
Proof.
  revert h. induction a as [|s a IH]; intros h; simpl.
  - reflexivity.
  - unfold mbind, M_bind in *. destruct (exec self s h) as [[[]|e] h1]; [apply IH | done].
Qed.

Lemma snoc_inj (h : heap) (a b : HParams) :
  h ++ [OHParams a] = h ++ [OHParams b] → a = b.
Proof. intros H. apply app_inv_head in H. by simplify_eq. Qed.

(** The last plain assignment to a name decides the attribute. *)
Lemma exec_all_last_assign pre name v post hpB hp :
  (∀ h, exec_all (length h) (pre ++ Assign name v :: post) (h ++ [OHParams hpB])
        = (Ok tt, h ++ [OHParams hp])) →
  name ∉ stmt_name <$> post →
  hp_attrs hp !! name = Some v.
Proof.
  intros Hrun Hpost. specialize (Hrun []).
  rewrite exec_all_app in Hrun. unfold mbind, M_bind in Hrun.
  destruct (exec_all_on_self pre hpB) as (r1 & hp1 & Hrun1 & _).
  rewrite (Hrun1 []) in Hrun. destruct r1 as [[]|e]; [|done].
  simpl in Hrun. unfold mbind, M_bind in Hrun.
  destruct (setattr_on_self name v hp1) as (r2 & hp2 & Hrun2 & _).
  pose proof (Hrun2 []) as Hset. unfold setattr in Hset. simpl in Hset.
  unfold mbind, M_bind, load_hparams, store_hparams in Hset. simpl in Hset.
  simplify_eq.
  unfold setattr, mbind, M_bind, load_hparams, store_hparams in Hrun.
  simpl in Hrun.
  destruct (exec_all_on_self post (hp_setattr name v hp1)) as (r3 & hp3 & Hrun3 & Hsame3).
  pose proof (Hrun3 []) as Hrest. simpl in Hrest, Hrun.
  rewrite Hrest in Hrun. simplify_eq.
  destruct (Hsame3 name Hpost) as [-> _]. simpl. apply lookup_insert_eq.
Qed.

(** Plain assignments never register anything. *)
Lemma exec_all_assign_types body hpB r hp :
  Forall is_assign body →
  (∀ h, exec_all (length h) body (h ++ [OHParams hpB]) = (r, h ++ [OHParams hp])) →
  hp_types hp = hp_types hpB.
Proof.
  intros Hall. revert hpB. induction Hall as [|s body Hs Hall IH]; intros hpB Hrun.
  - specialize (Hrun []). injection Hrun as _ Hhp. by simplify_eq.
  - destruct s as [name v| |]; try done.
    apply (IH (hp_setattr name v hpB)). intros h. rewrite <- (Hrun h).
    simpl. unfold setattr, mbind, M_bind, load_hparams, store_hparams.
    by rewrite lookup_snoc, insert_snoc.
Qed.

(** ** ppo_pong_ae_base *)

(** C10. Whenever [ppo_pong_ae_base] returns, the instance it returns keeps
    [policy_network] equal to "feed_forward_cnn_small_categorical_policy";
    "dense_bitwise_categorical_policy" sits in the other attribute, [network];
    and compared with what [ppo_original_params] returns, the table of
    registered hparams is the same and every attribute other than
    [learning_rate_constant] and [network] is the same. *)
Theorem ppo_pong_ae_base_keeps_policy_network
    (kw : list (string * pyval)) (h : heap) (l : loc) (h' : heap) :
  ppo_pong_ae_base kw h = (Ok l, h') →
  ∃ p, h' !! l = Some (OHParams p) ∧
    hp_attrs p !! "policy_network"
      = Some (Str "feed_forward_cnn_small_categorical_policy") ∧
    hp_attrs p !! "network" = Some (Str "dense_bitwise_categorical_policy") ∧
    hp_attrs p !! "learning_rate_constant" = Some (Float 1e-4) ∧
    ∀ h0 l0 h0', ppo_original_params kw h0 = (Ok l0, h0') →
      ∃ o, h0' !! l0 = Some (OHParams o) ∧
        hp_types p = hp_types o ∧
        ∀ name, name ≠ "learning_rate_constant" → name ≠ "network" →
          hp_attrs p !! name = hp_attrs o !! name.
Proof.
  intros Hrun.
  destruct (ppo_discrete_action_base_is_preset kw) as (rD & hpD & HD).
  destruct (derive_builds _ ppo_atari_base_body _ _ HD)
    as (rA & hpA & HA & _ & HokA).
  destruct (derive_builds _ ppo_original_params_body _ _ HA)
    as (rO & hpO & HO & HsameO & HokO).
  destruct (derive_builds _ ppo_pong_ae_base_body _ _ HO)
    as (rP & hpP & HP & HsameP & HokP).
  destruct (builds_ok_inv _ _ _ _ _ _ HP Hrun) as (-> & -> & ->).
  destruct (HokP eq_refl) as [-> HrunP].
  destruct (HokO eq_refl) as [-> HrunO].
  destruct (HokA eq_refl) as [-> HrunA].
  assert (hp_attrs hpA !! "policy_network"
          = Some (Str "feed_forward_cnn_small_categorical_policy")) as HpnA.
  { apply (exec_all_last_assign (take 8 ppo_atari_base_body) _ _
             (drop 9 ppo_atari_base_body) hpD hpA); [exact HrunA|].
    not_in_names. }
  assert (hp_attrs hpO !! "policy_network" = hp_attrs hpA !! "policy_network") as HpnO.
  { apply HsameO. not_in_names. }
  assert (hp_attrs hpP !! "policy_network" = hp_attrs hpO !! "policy_network") as HpnP.
  { apply HsameP. not_in_names. }
  exists hpP. rewrite lookup_snoc. split; [done|]. split; [congruence|]. split; [|split].
  - apply (exec_all_last_assign (take 1 ppo_pong_ae_base_body) _ _ [] hpO hpP);
      [exact HrunP | apply not_elem_of_nil].
  - apply (exec_all_last_assign [] _ _ (drop 1 ppo_pong_ae_base_body) hpO hpP);
      [exact HrunP|].
    not_in_names.
  - intros h0 l0 h0' Hrun0.
    destruct (builds_ok_inv _ _ _ _ _ _ HO Hrun0) as (_ & -> & ->).
    exists hpO. rewrite lookup_snoc. split; [done|]. split.
    + apply (exec_all_assign_types ppo_pong_ae_base_body hpO (Ok tt) hpP);
        [|exact HrunP].
      repeat constructor.
    + intros name Hn1 Hn2. apply HsameP. not_in_names.
Qed.

Lemma ppo_pong_ae_base_keeps_policy_network_witness :
  ∃ p, (ppo_pong_ae_base sample_basic_params1_kwargs []).2 !! 0 = Some (OHParams p) ∧
    hp_attrs p !! "policy_network"
      = Some (Str "feed_forward_cnn_small_categorical_policy").
Proof.
  destruct (ppo_pong_ae_base_keeps_policy_network sample_basic_params1_kwargs
              [] 0 (ppo_pong_ae_base sample_basic_params1_kwargs []).2)
    as (p & Hp & Hpn & _).
  - vm_compute. reflexivity.
  - exists p. split; [exact Hp | exact Hpn].
Defined.

(** ** clip_logits *)

Lemma Qltb_lt a b : Qltb a b = true ↔ (a < b)%Q.
Proof.
  unfold Qltb. rewrite negb_true_iff. split.
  - intros H. apply Qnot_le_lt. intros Hle. apply Qle_bool_iff in Hle. congruence.
  - intros H. destruct (Qle_bool b a) eqn:Hb; [|done].
    apply Qle_bool_iff in Hb. exfalso. by apply (Qlt_not_le a b).
Qed.

Lemma Qltb_nlt a b : Qltb a b = false ↔ (b <= a)%Q.
Proof.
  unfold Qltb. rewrite negb_false_iff. apply Qle_bool_iff.
Qed.

Lemma foldl_Qmin_le_init xs x : (foldl Qmin x xs <= x)%Q.
Proof.
  revert x. induction xs as [|y xs IH]; intros x; simpl.
  - apply Qle_refl.
  - eapply Qle_trans; [apply IH | apply Q.le_min_l].
Qed.

Lemma foldl_Qmin_le_elem xs x y : y ∈ xs → (foldl Qmin x xs <= y)%Q.
Proof.
  revert x. induction xs as [|z xs IH]; intros x Hy.
  - by apply elem_of_nil in Hy.
  - apply elem_of_cons in Hy as [->|Hy]; simpl.
    + eapply Qle_trans; [apply foldl_Qmin_le_init | apply Q.le_min_r].
    + by apply IH.
Qed.

(** The reduced minimum is below every entry. *)
Lemma tf_reduce_min_le t x : x ∈ entries t → (tf_reduce_min t <= x)%Q.
Proof.
  unfold tf_reduce_min. destruct (entries t) as [|y ys]; intros Hx.
  - by apply elem_of_nil in Hx.
  - apply elem_of_cons in Hx as [->|Hx].
    + apply foldl_Qmin_le_init.
    + by apply foldl_Qmin_le_elem.
Qed.

Lemma py_gt_zero_number value c :
  number_value value = Some c → py_gt_zero value = Ok (Qltb 0 c).
Proof.
  destruct value as [[]| |]; simpl; intros H; simplify_eq; [|done].
  f_equal. unfold Qltb, Qle_bool. simpl. rewrite Z.mul_1_r.
  destruct (0 <? z)%Z eqn:Hz.
  - apply Z.ltb_lt in Hz. symmetry. apply negb_true_iff, Z.leb_gt. done.
  - apply Z.ltb_ge in Hz. symmetry. apply negb_false_iff, Z.leb_le. done.
Qed.

Lemma as_float_scalar_number value c :
  number_value value = Some c → as_float_scalar value = Ok c.
Proof. destruct value as [[]| |]; simpl; intros H; by simplify_eq. Qed.

(** C1. With [logits_clip] set to a number [c > 0], [clip_logits] returns a
    tensor of the shape of [logits] whose entries are those of [logits]
    minus the least entry of the whole batch, capped at [c]; every one of
    them lies between [0] and [c]. *)
Theorem clip_logits_range (logits : Tensor) (config : HParams)
    (value : pyval) (c : Q) :
  hp_attrs config !! "logits_clip" = Some value →
  number_value value = Some c →
  (0 < c)%Q →
  ∃ out, clip_logits logits config = Ok out ∧
    shape out = shape logits ∧
    entries out = (λ x, Qmin (x - tf_reduce_min logits) c) <$> entries logits ∧
    Forall (λ y, (0 <= y)%Q ∧ (y <= c)%Q) (entries out).
Proof.
  intros Hattr Hnum Hc.
  exists (tf_minimum_scalar (tf_sub_scalar logits (tf_reduce_min logits)) c).
  split; [|split; [done|split]].
  - unfold clip_logits, getattr_default. rewrite Hattr. simpl.
    rewrite (py_gt_zero_number _ _ Hnum). simpl.
    apply Qltb_lt in Hc. rewrite Hc.
    by rewrite (as_float_scalar_number _ _ Hnum).
  - simpl. by rewrite <- list_fmap_compose.
  - simpl. rewrite <- list_fmap_compose. apply Forall_fmap, Forall_forall.
    intros x Hx. simpl. split.
    + apply Q.min_glb; [|by apply Qlt_le_weak].
      apply tf_reduce_min_le in Hx.
      rewrite <- (Qplus_opp_r (tf_reduce_min logits)).
      by apply Qplus_le_compat; [|apply Qle_refl].
    + apply Q.le_min_r.
Qed.

Lemma clip_logits_range_witness :
  ∃ out, clip_logits sample_logits (sample_config (Float 4)) = Ok out ∧
    shape out = [1; 2; 3] ∧
    entries out = (λ x, Qmin (x - tf_reduce_min sample_logits) 4) <$> entries sample_logits ∧
    Forall (λ y, (0 <= y)%Q ∧ (y <= 4)%Q) (entries out).
Proof.
  apply (clip_logits_range sample_logits (sample_config (Float 4)) (Float 4) 4).
  - reflexivity.
  - reflexivity.
  - reflexivity.
Defined.

(** C2. With [logits_clip] absent, or set to a number that is zero or
    negative, [clip_logits] returns [logits] itself. *)
Theorem clip_logits_identity (logits : Tensor) (config : HParams) :
  (hp_attrs config !! "logits_clip" = None ∨
   ∃ value c, hp_attrs config !! "logits_clip" = Some value ∧
     number_value value = Some c ∧ (c <= 0)%Q) →
  clip_logits logits config = Ok logits.
Proof.
  unfold clip_logits, getattr_default. intros [Habsent | (value & c & Hattr & Hnum & Hc)].
  - rewrite Habsent. reflexivity.
  - rewrite Hattr. simpl. rewrite (py_gt_zero_number _ _ Hnum). simpl.
    apply Qltb_nlt in Hc. by rewrite Hc.
Qed.

Lemma clip_logits_identity_witness :
  clip_logits sample_logits empty_hparams = Ok sample_logits ∧
  clip_logits sample_logits (sample_config (Float (-1))) = Ok sample_logits ∧
  clip_logits sample_logits (sample_config (Int 0)) = Ok sample_logits.
Proof.
  split; [|split].
  - apply clip_logits_identity. left. reflexivity.
  - apply clip_logits_identity. right. exists (Float (-1)), (-1)%Q.
    split; [reflexivity | split; [reflexivity | discriminate]].
  - apply clip_logits_identity. right. exists (Int 0), 0%Q.
    split; [reflexivity | split; [reflexivity | discriminate]].
Defined.

(** ** Environment factories *)

(** C7. For every reference [env] and every store: the function made by
    [make_real_env_fn env] returns [env] itself on [False], leaving the store
    as it is; on [True] it returns a new [PyFuncBatchEnv] adapter around
    [env], and every object that was in the store, [env] among them, is
    unchanged. *)
Theorem make_real_env_fn_spec (env : loc) (h : heap) :
  make_real_env_fn env false h = (Ok env, h) ∧
  ∃ wrapped h',
    make_real_env_fn env true h = (Ok wrapped, h') ∧
    h' !! wrapped = Some (OPyFuncBatchEnv env) ∧
    h !! wrapped = None ∧
    ∀ l o, h !! l = Some o → h' !! l = Some o.
Proof.
  split; [reflexivity|].
  exists (length h), (h ++ [OPyFuncBatchEnv env]). split; [reflexivity|].
  split; [apply lookup_snoc|]. split.
  - by apply lookup_ge_None_2.
  - intros l o. apply lookup_snoc_old.
Qed.

Lemma bind_kwargs_missing sig kwargs name :
  Forall (λ n, accepts sig n = true) kwargs.*1 →
  name ∈ required sig → name ∉ kwargs.*1 →
  ∃ missing, name ∈ missing ∧
    bind_kwargs sig kwargs
    = Raise (TypeError ("__init__() missing required arguments: "
                        +:+ join_names missing)).
Proof.
  intros Hknown Hreq Hmiss. unfold bind_kwargs.
  assert (filter (λ n, accepts sig n = false) kwargs.*1 = []) as ->.
  { clear Hmiss. induction Hknown as [|n ns Hn _ IH]; [done|].
    rewrite filter_cons. destruct (decide (accepts sig n = false)); [congruence|done]. }
  exists (filter (λ n, has_key kwargs n = false) (required sig)).
  assert (name ∈ filter (λ n, has_key kwargs n = false) (required sig)) as Hin.
  { apply list_elem_of_filter. split; [|done].
    unfold has_key. by apply bool_decide_eq_false. }
  split; [done|].
  destruct (filter _ (required sig)); [by apply elem_of_nil in Hin | done].
Qed.

(** C8. The function made by [make_simulated_env_fn] hands the very same
    keywords to [SimulatedBatchEnv] on [True] and to [SimulatedBatchGymEnv]
    on [False].  When the keywords fit the constructors, both calls return a
    new environment of their class holding these keywords.  When they do not
    fit, both calls raise the same error and build nothing; with a required
    argument missing that error is the missing-argument [TypeError]. *)
Theorem make_simulated_env_fn_spec (sig : signature)
    (env_kwargs : list (string * loc)) (h : heap) :
  let env_fn := make_simulated_env_fn sig env_kwargs in
  env_fn true h = construct sig SimulatedBatchEnv env_kwargs h ∧
  env_fn false h = construct sig SimulatedBatchGymEnv env_kwargs h ∧
  (bind_kwargs sig env_kwargs = Ok tt →
   env_fn true h = (Ok (length h), h ++ [OSimulatedBatchEnv env_kwargs]) ∧
   env_fn false h = (Ok (length h), h ++ [OSimulatedBatchGymEnv env_kwargs])) ∧
  (∀ e, bind_kwargs sig env_kwargs = Raise e →
     env_fn true h = (Raise e, h) ∧ env_fn false h = (Raise e, h)) ∧
  (∀ name,
     Forall (λ n, accepts sig n = true) env_kwargs.*1 →
     name ∈ required sig → name ∉ env_kwargs.*1 →
     ∃ missing, name ∈ missing ∧
       let e := TypeError ("__init__() missing required arguments: "
                           +:+ join_names missing) in
       env_fn true h = (Raise e, h) ∧ env_fn false h = (Raise e, h)).
Proof.
  simpl. split; [reflexivity|]. split; [reflexivity|].
  unfold make_simulated_env_fn, construct, mbind, M_bind, lift, alloc.
  split; [|split].
  - intros ->. by simpl.
  - intros e ->. done.
  - intros name Hknown Hreq Hmiss.
    destruct (bind_kwargs_missing _ _ _ Hknown Hreq Hmiss) as (missing & Hin & ->).
    by exists missing.
Qed.

Lemma make_simulated_env_fn_spec_witness :
  let env_fn := make_simulated_env_fn sample_signature [("batch_size", 0)] in
  ∃ missing, "model_name" ∈ missing ∧
    let e := TypeError ("__init__() missing required arguments: "
                        +:+ join_names missing) in
    env_fn true [OOther "sixteen"] = (Raise e, [OOther "sixteen"]) ∧
    env_fn false [OOther "sixteen"] = (Raise e, [OOther "sixteen"]).
Proof.
  destruct (make_simulated_env_fn_spec sample_signature [("batch_size", 0)]
              [OOther "sixteen"]) as (_ & _ & _ & _ & Hmissing).
  apply (Hmissing "model_name").
  - repeat constructor.
  - simpl. rewrite !elem_of_cons. auto.
  - simpl. rewrite elem_of_cons, elem_of_nil. intros [H|[]]. discriminate H.
Defined.

(** ** RandomPolicy *)

Lemma num_elements_3 a b c : num_elements [a; b; c] = a * b * c.
Proof. unfold num_elements. simpl. lia. Qed.

Lemma num_elements_2 a b : num_elements [a; b] = a * b.
Proof. unfold num_elements. simpl. lia. Qed.

(** C4, as the code has it.  On features whose "inputs" has shape
    (B, T, ...) and whose "target_action" has N >= 1 as third dimension, in a
    scope where the dummy variable can be made or shared,
    [RandomPolicy.body] returns a "target_action" of shape (B, T, N) whose
    B*T*N entries are all 1/N and a "target_value" of shape (B, T) whose
    entries are all 0. *)
Theorem RandomPolicy_body_uniform (hparams : HParams) (features : features_t)
    (g g1 : graph) (name : string) (observations target_action : Tensor)
    (B T N : nat) (rest : list nat) :
  features !! "inputs" = Some observations →
  shape observations = B :: T :: rest →
  features !! "target_action" = Some target_action →
  shape target_action !! 2 = Some N →
  N ≠ 0 →
  get_variable "dummy_var" [] g = (Ok name, g1) →
  ∃ out logits value,
    RandomPolicy_body hparams features g = (Ok out, g1) ∧
    out !! "target_action" = Some logits ∧
    shape logits = [B; T; N] ∧
    entries logits = replicate (B * T * N) (1 / inject_Z (Z.of_nat N))%Q ∧
    out !! "target_value" = Some value ∧
    shape value = [B; T] ∧
    entries value = replicate (B * T) 0%Q.
Proof.
  intros Hin Hshape Hta HN Hpos Hvar.
  exists (outputs (tf_constant (1 / inject_Z (Z.of_nat N)) [B; T; N]) (tf_zeros [B; T])),
    (tf_constant (1 / inject_Z (Z.of_nat N)) [B; T; N]), (tf_zeros [B; T]).
  split; [|split; [done|split; [done|split; [|split; [done|split; [done|]]]]]].
  - unfold RandomPolicy_body, _get_num_actions, getitem, list_index, shape_list,
      mbind, M_bind, lift.
    rewrite Hin, Hvar, Hta. simpl. rewrite HN. simpl.
    unfold py_reciprocal. destruct N as [|N']; [done|].
    by rewrite Hshape.
  - unfold tf_constant. cbn [entries]. by rewrite num_elements_3.
  - unfold tf_zeros, tf_constant. cbn [entries]. by rewrite num_elements_2.
Qed.

Lemma RandomPolicy_body_uniform_witness :
  ∃ out logits value,
    RandomPolicy_body empty_hparams (sample_features [2; 3; 5] 4) empty_graph
      = (Ok out, {| scope := ""; reuse := NoReuse;
                    variables := {[ "dummy_var" := [] ]} |}) ∧
    out !! "target_action" = Some logits ∧
    shape logits = [2; 3; 4] ∧
    entries logits = replicate (2 * 3 * 4) (1 / inject_Z (Z.of_nat 4))%Q ∧
    out !! "target_value" = Some value ∧
    shape value = [2; 3] ∧
    entries value = replicate (2 * 3) 0%Q.
Proof.
  apply (RandomPolicy_body_uniform empty_hparams (sample_features [2; 3; 5] 4)
           empty_graph _ "dummy_var" (tf_constant 7 [2; 3; 5]) (tf_zeros [2; 3; 4])
           2 3 4 [5]).
  - reflexivity.
  - reflexivity.
  - reflexivity.
  - reflexivity.
  - discriminate.
  - reflexivity.
Defined.

(** With no action at all the body does not return: [1. / float(0)]
    raises.  Nor does it return when it is run a second time in the same
    variable scope without reuse: the dummy variable is already there. *)
Lemma RandomPolicy_body_can_raise :
  sample_features [2; 3; 5] 0 !! "inputs" = Some (tf_constant 7 [2; 3; 5]) ∧
  sample_features [2; 3; 5] 0 !! "target_action" = Some (tf_zeros [2; 3; 0]) ∧
  shape (tf_zeros [2; 3; 0]) !! 2 = Some 0 ∧
  (RandomPolicy_body empty_hparams (sample_features [2; 3; 5] 0) empty_graph).1
    = Raise ZeroDivisionError ∧
  let first := RandomPolicy_body empty_hparams (sample_features [2; 3; 5] 4)
                 empty_graph in
  (RandomPolicy_body empty_hparams (sample_features [2; 3; 5] 4) first.2).1
    = Raise (ValueError "Variable dummy_var already exists, disallowed.").
Proof.
  split; [reflexivity|]. split; [reflexivity|]. split; [reflexivity|].
  split; [reflexivity|]. vm_compute. reflexivity.
Qed.

(** C5. Two feature mappings whose observations have the same shape and
    whose "target_action" entries have the same third dimension get the same
    result from [RandomPolicy.body], whatever the observations hold (and
    whatever the hparams are). *)
Theorem RandomPolicy_body_ignores_observations (hparams1 hparams2 : HParams)
    (features1 features2 : features_t) (g : graph)
    (observations1 observations2 target_action1 target_action2 : Tensor) :
  features1 !! "inputs" = Some observations1 →
  features2 !! "inputs" = Some observations2 →
  shape observations1 = shape observations2 →
  features1 !! "target_action" = Some target_action1 →
  features2 !! "target_action" = Some target_action2 →
  shape target_action1 !! 2 = shape target_action2 !! 2 →
  RandomPolicy_body hparams1 features1 g = RandomPolicy_body hparams2 features2 g.
Proof.
  intros Hin1 Hin2 Hshape Hta1 Hta2 HN.
  unfold RandomPolicy_body, _get_num_actions, getitem, list_index, shape_list,
    mbind, M_bind, lift.
  rewrite Hin1, Hin2, Hta1, Hta2. simpl. by rewrite Hshape, HN.
Qed.

Lemma RandomPolicy_body_ignores_observations_witness :
  RandomPolicy_body empty_hparams (sample_features [2; 3; 5] 4) empty_graph
  = RandomPolicy_body empty_hparams
      (<["inputs" := tf_constant (-1) [2; 3; 5]]> (sample_features [2; 3; 5] 4))
      empty_graph.
Proof.
  apply (RandomPolicy_body_ignores_observations _ _ _ _ _
           (tf_constant 7 [2; 3; 5]) (tf_constant (-1) [2; 3; 5])
           (tf_zeros [2; 3; 4]) (tf_zeros [2; 3; 4])); reflexivity.
Defined.

(** ** DenseBitwiseCategoricalPolicy *)

Lemma string_app_inj (p a b : string) : p +:+ a = p +:+ b → a = b.
Proof. induction p as [|c p IH]; simpl; intros H; [done | apply IH; by simplify_eq]. Qed.

Lemma dense_at_agree (b1 b2 : Backend) (skip layer : string) x n act :
  (∀ layer act x n, layer ≠ skip →
     @dense_entries b1 layer act x n = @dense_entries b2 layer act x n) →
  layer ≠ skip →
  @dense_at b1 layer x n act = @dense_at b2 layer x n act.
Proof. intros H Hne. unfold dense_at. by rewrite (H _ _ _ _ Hne). Qed.

Lemma later_layers_differ (p : string) (k : nat) :
  k ∈ [1; 2; 3] →
  p +:+ default_name "fully_connected" k ≠ p +:+ "fully_connected".
Proof.
  intros Hk Heq. apply string_app_inj in Heq.
  rewrite !elem_of_cons, elem_of_nil in Hk.
  destruct Hk as [->|[->|[->|[]]]]; vm_compute in Heq; discriminate.
Qed.

Lemma leave_scope_same_variables g s r :
  leave_scope g {| scope := s; reuse := r; variables := variables g |} = g.
Proof. by destruct g. Qed.

(** *** The variables a layer makes *)

Lemma string_app_assoc (a b c : string) : (a +:+ b) +:+ c = a +:+ (b +:+ c).
Proof.
  induction a as [|ch a IH]; [reflexivity|].
  change (String ch ((a +:+ b) +:+ c) = String ch (a +:+ (b +:+ c))).
  by f_equal.
Qed.

(** [get_variable] keeps the scope and every variable that is there; when it
    returns, the variable it names is there with the shape asked for. *)
Lemma get_variable_inv name dims g r g' :
  get_variable name dims g = (r, g') →
  scope g' = scope g ∧ reuse g' = reuse g ∧
  (∀ k v, variables g !! k = Some v → variables g' !! k = Some v) ∧
  (∀ full, r = Ok full → variables g' !! (scope g +:+ name) = Some dims).
Proof.
  unfold get_variable.
  destruct (variables g !! (scope g +:+ name)) as [dims'|] eqn:Hlook,
    (reuse g) eqn:Hreuse;
    try (destruct (shape_eqb dims dims') eqn:Heq;
         [apply bool_decide_eq_true in Heq as ->|]);
    intros [= <- <-]; cbn [scope reuse variables]; rewrite ?Hreuse;
    (split; [done|]); (split; [done|]); split; try done.
  all: try (intros k v Hk; rewrite lookup_insert_ne; [done|];
            intros <-; by rewrite Hlook in Hk).
  all: intros full _; apply lookup_insert_eq.
Qed.

Lemma get_variable_fresh name dims g :
  variables g !! (scope g +:+ name) = None → reuse g ≠ Reuse →
  get_variable name dims g
  = (Ok (scope g +:+ name),
     {| scope := scope g; reuse := reuse g;
        variables := <[scope g +:+ name := dims]> (variables g) |}).
Proof.
  intros Hlook Hreuse. unfold get_variable. rewrite Hlook.
  by destruct (reuse g).
Qed.

Lemma layer_variables_inv layer w wd b bd g r g' :
  layer_variables layer (w, wd) (b, bd) g = (r, g') →
  scope g' = scope g ∧ reuse g' = reuse g ∧
  (∀ k v, variables g !! k = Some v → variables g' !! k = Some v) ∧
  (r = Ok tt →
     variables g' !! ((scope g +:+ layer) +:+ "/" +:+ w) = Some wd ∧
     variables g' !! ((scope g +:+ layer) +:+ "/" +:+ b) = Some bd).
Proof.
  unfold layer_variables, variable_scope, mbind, M_bind. cbn [fst snd].
  match goal with |- context [get_variable w wd ?G] =>
    destruct (get_variable w wd G) as [[nw|e] g1] eqn:Hw end.
  2:{ apply get_variable_inv in Hw as (_ & _ & Hmono & _).
      intros [= <- <-]. repeat split; try done. }
  destruct (get_variable b bd g1) as [[nb|e] g2] eqn:Hb.
  all: apply get_variable_inv in Hw as (Hs1 & Hr1 & Hmono1 & Hnew1);
       apply get_variable_inv in Hb as (Hs2 & Hr2 & Hmono2 & Hnew2);
       cbn [scope reuse variables] in *;
       intros [= <- <-]; cbn [leave_scope scope reuse variables];
       (split; [done|]); (split; [done|]); split; try (by auto); try done.
  intros _. specialize (Hnew1 nw eq_refl). specialize (Hnew2 nb eq_refl).
  rewrite Hs1 in Hnew2. rewrite !string_app_assoc in Hnew1, Hnew2.
  rewrite !string_app_assoc. split; [by apply Hmono2 | done].
Qed.

(** The run of a dense layer: what it does to the graph does not depend on
    the numerics, which only fill in the output. *)
Lemma dense_layer_run layer kernel bias x n act g :
  ∃ (r : outcome unit) g',
    (∀ b : Backend, @dense_layer b layer kernel bias x n act g
       = (match r with
          | Ok _ => Ok (@dense_at b (scope g +:+ layer) x n act)
          | Raise e => Raise e
          end, g')) ∧
    scope g' = scope g ∧ reuse g' = reuse g ∧
    (∀ k v, variables g !! k = Some v → variables g' !! k = Some v) ∧
    (r = Ok tt →
       2 ≤ length (shape x) ∧
       variables g' !! ((scope g +:+ layer) +:+ "/" +:+ kernel)
         = Some [default 0 (last (shape x)); n] ∧
       variables g' !! ((scope g +:+ layer) +:+ "/" +:+ bias) = Some [n]).
Proof.
  unfold dense_layer, dense_input_width, mbind, M_bind, lift, get.
  destruct (length (shape x) <? 2) eqn:Hrank.
  { exists (Raise (ValueError "Dense layer expects input with rank 2 or more")), g.
    by repeat split. }
  apply Nat.ltb_ge in Hrank.
  destruct (layer_variables layer (kernel, [default 0 (last (shape x)); n])
              (bias, [n]) g) as [[[]|e] g1] eqn:Hvars;
    apply layer_variables_inv in Hvars as (Hs & Hr & Hmono & Hnew).
  - exists (Ok tt), g1. destruct (Hnew eq_refl) as [Hk Hb].
    split; [|by repeat split]. intros b. unfold mret, M_ret. by rewrite Hs.
  - exists (Raise e), g1. by repeat split.
Qed.

Lemma layer_var_name (p layer v : string) :
  (p +:+ layer +:+ "/") +:+ v = (p +:+ layer) +:+ "/" +:+ v.
Proof. by rewrite !string_app_assoc. Qed.

Lemma layer_variables_fresh layer w wd b bd g :
  reuse g ≠ Reuse → w ≠ b →
  variables g !! ((scope g +:+ layer) +:+ "/" +:+ w) = None →
  variables g !! ((scope g +:+ layer) +:+ "/" +:+ b) = None →
  ∃ g', layer_variables layer (w, wd) (b, bd) g = (Ok tt, g') ∧
    ∀ k, k ≠ (scope g +:+ layer) +:+ "/" +:+ w →
         k ≠ (scope g +:+ layer) +:+ "/" +:+ b →
         variables g !! k = None → variables g' !! k = None.
Proof.
  rewrite <- !layer_var_name.
  intros Hreuse Hwb Hw Hb.
  unfold layer_variables, variable_scope, mbind, M_bind. cbn [fst snd].
  rewrite get_variable_fresh; cbn [scope reuse variables]; [|done|done].
  rewrite get_variable_fresh; cbn [scope reuse variables]; [| |done].
  2:{ rewrite lookup_insert_ne; [done|]. intros Heq. by apply string_app_inj in Heq. }
  eexists. split; [reflexivity|]. cbn [leave_scope variables].
  intros k Hk1 Hk2 Hk. by rewrite !lookup_insert_ne.
Qed.

Lemma dense_layer_fresh (backend : Backend) layer kernel bias x n act g :
  2 ≤ length (shape x) → reuse g ≠ Reuse → kernel ≠ bias →
  variables g !! ((scope g +:+ layer) +:+ "/" +:+ kernel) = None →
  variables g !! ((scope g +:+ layer) +:+ "/" +:+ bias) = None →
  ∃ g', dense_layer layer kernel bias x n act g
        = (Ok (dense_at (scope g +:+ layer) x n act), g') ∧
    scope g' = scope g ∧ reuse g' = reuse g ∧
    ∀ k, k ≠ (scope g +:+ layer) +:+ "/" +:+ kernel →
         k ≠ (scope g +:+ layer) +:+ "/" +:+ bias →
         variables g !! k = None → variables g' !! k = None.
Proof.
  intros Hrank Hreuse Hkb Hk Hb.
  destruct (layer_variables_fresh layer kernel [default 0 (last (shape x)); n]
              bias [n] g Hreuse Hkb Hk Hb) as (g' & Hvars & Hnone).
  exists g'. pose proof Hvars as Hinv.
  apply layer_variables_inv in Hinv as (Hs & Hr & _).
  split; [|done].
  unfold dense_layer, dense_input_width, mbind, M_bind, lift, get.
  apply Nat.ltb_ge in Hrank. rewrite Hrank, Hvars. unfold mret, M_ret.
  by rewrite Hs.
Qed.

Lemma flatten_per_step_ok obs_shape x flat :
  flatten_per_step obs_shape x = Ok flat →
  ∃ B T rest d, obs_shape = B :: T :: rest ∧ shape flat = [B; T; d].
Proof.
  unfold flatten_per_step, list_index, tf_reshape, mbind, outcome_bind.
  destruct obs_shape as [|B [|T rest]]; simpl; [done|done|].
  destruct (_ =? _); [|done]. intros [= <-]. by eexists B, T, rest, _.
Qed.

Lemma tf_index_last_0_shape v B T :
  shape v = [B; T; 1] → ∃ value, tf_index_last_0 v = Ok value ∧ shape value = [B; T].
Proof. intros Hv. unfold tf_index_last_0. rewrite Hv. simpl. by eexists. Qed.

(** Two variable names under one prefix differ when what follows the prefix
    differs. *)
Ltac names_differ :=
  rewrite ?string_app_assoc;
  let Heq := fresh "Heq" in
  intros Heq; apply string_app_inj in Heq; vm_compute in Heq; discriminate.

Ltac run_layer r g' H :=
  match goal with |- context [@dense_layer _ ?l ?k ?b ?x ?n ?a ?G] =>
    destruct (dense_layer_run l k b x n a G) as (r & g' & H)
  end.

(** C9. In [DenseBitwiseCategoricalPolicy.body] (1) the result, graph
    included, is the same for any two sets of network numerics that differ
    only in what the first fully connected layer of the scope, the 256-unit
    one, computes; (2) whenever the body returns, the 256-unit layer has been
    built (its weights and biases are in the graph, the weights as wide as
    [flat_x]), the 128-unit second layer reads the flattened bit embedding
    [flat_x] itself (its weights are as wide as [flat_x], not 256), and the
    logits are the third layer and the value the fourth, both applied to the
    128-unit layer; (3) the body does return: on features whose "inputs" can
    be reshaped and flattened and whose "target_action" gives the action
    count, in a scope that does not ask for reuse and holds no variable under
    "dense_bitwise/". *)
Theorem DenseBitwise_body_skips_256_layer (b1 b2 : Backend) (hparams : HParams)
    (features : features_t) (g : graph) :
  let layer k := (scope g +:+ "dense_bitwise/") +:+ default_name "fully_connected" k in
  (∀ l act x n, l ≠ layer 0 →
     @dense_entries b1 l act x n = @dense_entries b2 l act x n) →
  (∀ x bits size, @int_to_bit_embed b1 x bits size = @int_to_bit_embed b2 x bits size) →
  @DenseBitwiseCategoricalPolicy_body b1 hparams features g
  = @DenseBitwiseCategoricalPolicy_body b2 hparams features g ∧
  (∀ out g', @DenseBitwiseCategoricalPolicy_body b1 hparams features g = (Ok out, g') →
    ∃ observations x flat_x N value,
      features !! "inputs" = Some observations ∧
      tf_reshape observations (None :: (Some <$> drop 2 (shape observations))) = Ok x ∧
      flatten_per_step (shape observations) (@int_to_bit_embed b1 x 8 32) = Ok flat_x ∧
      _get_num_actions features = Ok N ∧
      let hidden := @dense_at b1 (layer 1) flat_x 128 relu in
      let width := default 0 (last (shape flat_x)) in
      out !! "target_action" = Some (@dense_at b1 (layer 2) hidden N linear) ∧
      tf_index_last_0 (@dense_at b1 (layer 3) hidden 1 linear) = Ok value ∧
      out !! "target_value" = Some value ∧
      variables g' !! (layer 0 +:+ "/weights") = Some [width; 256] ∧
      variables g' !! (layer 0 +:+ "/biases") = Some [256] ∧
      variables g' !! (layer 1 +:+ "/weights") = Some [width; 128] ∧
      variables g' !! (layer 1 +:+ "/biases") = Some [128] ∧
      variables g' !! (layer 2 +:+ "/weights") = Some [128; N] ∧
      variables g' !! (layer 3 +:+ "/weights") = Some [128; 1] ∧
      scope g' = scope g ∧ reuse g' = reuse g) ∧
  (∀ observations x flat_x N,
     features !! "inputs" = Some observations →
     tf_reshape observations (None :: (Some <$> drop 2 (shape observations))) = Ok x →
     flatten_per_step (shape observations) (@int_to_bit_embed b1 x 8 32) = Ok flat_x →
     _get_num_actions features = Ok N →
     reuse g ≠ Reuse →
     (∀ suffix, variables g !! ((scope g +:+ "dense_bitwise/") +:+ suffix) = None) →
     ∃ out g', @DenseBitwiseCategoricalPolicy_body b1 hparams features g = (Ok out, g')).
Proof.
  intros layer Hdense Hembed.
  assert (∀ k x n act, k ∈ [1; 2; 3] →
            @dense_at b1 (layer k) x n act = @dense_at b2 (layer k) x n act) as Hlater.
  { intros k x n act Hk. apply (dense_at_agree b1 b2 (layer 0)); [exact Hdense|].
    by apply later_layers_differ. }
  unfold DenseBitwiseCategoricalPolicy_body, mbind, M_bind, lift, variable_scope,
    fully_connected, shape_list.
  change (scope g +:+ "dense_bitwise" +:+ "/") with (scope g +:+ "dense_bitwise/").
  set (G := {| scope := scope g +:+ "dense_bitwise/"; reuse := reuse g;
               variables := variables g |}).
  split; [|split].
  - destruct (getitem features "inputs") as [observations|e]; [|done].
    destruct (tf_reshape observations _) as [x|e]; [|done].
    rewrite Hembed.
    destruct (flatten_per_step _ _) as [flat_x|e]; [|done].
    run_layer r0 g0 H0. destruct H0 as (Hrun0 & Hs0 & _).
    rewrite !Hrun0. destruct r0 as [[]|e]; [|done].
    run_layer r1 g1 H1. destruct H1 as (Hrun1 & Hs1 & _).
    rewrite !Hrun1. destruct r1 as [[]|e]; [|done].
    destruct (_get_num_actions features) as [N|e]; [|done].
    rewrite Hs0. change (scope G) with (scope g +:+ "dense_bitwise/").
    fold (layer 1). rewrite (Hlater 1) by (rewrite !elem_of_cons; auto).
    run_layer r2 g2 H2. destruct H2 as (Hrun2 & Hs2 & _).
    rewrite !Hrun2. destruct r2 as [[]|e]; [|done].
    run_layer r3 g3 H3. destruct H3 as (Hrun3 & Hs3 & _).
    rewrite !Hrun3. destruct r3 as [[]|e]; [|done].
    rewrite Hs2, Hs1, Hs0. change (scope G) with (scope g +:+ "dense_bitwise/").
    fold (layer 2) (layer 3).
    rewrite !Hlater by (rewrite !elem_of_cons; auto). reflexivity.
  - intros out g'. unfold getitem at 1.
    destruct (features !! "inputs") as [observations|] eqn:Hin; [|done].
    destruct (tf_reshape observations _) as [x|e] eqn:Hx; [|done].
    destruct (flatten_per_step _ _) as [flat_x|e] eqn:Hflat; [|done].
    run_layer r0 g0 H0. destruct H0 as (Hrun0 & Hs0 & Hr0 & Hmono0 & Hnew0).
    rewrite Hrun0. destruct r0 as [[]|e]; [|done].
    run_layer r1 g1 H1. destruct H1 as (Hrun1 & Hs1 & Hr1 & Hmono1 & Hnew1).
    rewrite Hrun1. destruct r1 as [[]|e]; [|done].
    destruct (_get_num_actions features) as [N|e] eqn:HN; [|done].
    run_layer r2 g2 H2. destruct H2 as (Hrun2 & Hs2 & Hr2 & Hmono2 & Hnew2).
    rewrite Hrun2. destruct r2 as [[]|e]; [|done].
    run_layer r3 g3 H3. destruct H3 as (Hrun3 & Hs3 & Hr3 & Hmono3 & Hnew3).
    rewrite Hrun3. destruct r3 as [[]|e]; [|done].
    rewrite Hs2, Hs1, Hs0.
    destruct (tf_index_last_0 _) as [value|e] eqn:Hvalue; [|done].
    unfold mret, M_ret. intros [= <- <-].
    destruct (Hnew0 eq_refl) as (_ & Hw0 & Hb0).
    destruct (Hnew1 eq_refl) as (_ & Hw1 & Hb1). rewrite Hs0 in Hw1, Hb1.
    destruct (Hnew2 eq_refl) as (_ & Hw2 & _).
    destruct (Hnew3 eq_refl) as (_ & Hw3 & _).
    unfold dense_at, replace_last in Hw2, Hw3. cbn [shape] in Hw2, Hw3.
    rewrite last_snoc in Hw2, Hw3. cbn [default] in Hw2, Hw3.
    rewrite Hs1, Hs0 in Hw2. rewrite Hs2, Hs1, Hs0 in Hw3.
    exists observations, x, flat_x, N, value.
    cbn [leave_scope scope reuse variables].
    repeat split; try done.
    + by apply Hmono3, Hmono2, Hmono1.
    + by apply Hmono3, Hmono2, Hmono1.
    + by apply Hmono3, Hmono2.
    + by apply Hmono3, Hmono2.
    + by apply Hmono3.
  - intros observations x flat_x N Hin Hx Hflat HN Hreuse Hfresh.
    unfold getitem. rewrite Hin, Hx, Hflat, HN.
    apply flatten_per_step_ok in Hflat as (B & T & rest & d & _ & Hshape).
    assert (∀ k v, variables G !! ((scope G +:+ default_name "fully_connected" k)
                                   +:+ "/" +:+ v) = None) as HfreshG.
    { intros k v. unfold G. cbn [scope variables].
      rewrite string_app_assoc. apply Hfresh. }
    destruct (dense_layer_fresh b1 (default_name "fully_connected" 0)
                "weights" "biases" flat_x 256 relu G)
      as (g0 & Hrun0 & Hs0 & Hr0 & Hnone0);
      [rewrite Hshape; simpl; lia | done | done | apply HfreshG | apply HfreshG |].
    rewrite Hrun0.
    destruct (dense_layer_fresh b1 (default_name "fully_connected" 1)
                "weights" "biases" flat_x 128 relu g0)
      as (g1 & Hrun1 & Hs1 & Hr1 & Hnone1);
      [rewrite Hshape; simpl; lia | by rewrite Hr0 | done
      | rewrite Hs0; apply Hnone0; [names_differ | names_differ | apply HfreshG]
      | rewrite Hs0; apply Hnone0; [names_differ | names_differ | apply HfreshG] |].
    rewrite Hrun1. rewrite Hs0 in Hs1, Hnone1.
    assert (2 ≤ length (shape (dense_at (scope g0 +:+ default_name "fully_connected" 1)
                                 flat_x 128 relu))) as Hrank.
    { unfold dense_at, replace_last. cbn [shape]. rewrite Hshape. simpl. lia. }
    match goal with |- context [@dense_layer _ ?l ?k ?b ?x ?n ?a g1] =>
      destruct (dense_layer_fresh b1 l k b x n a g1)
        as (g2 & Hrun2 & Hs2 & Hr2 & Hnone2);
        [exact Hrank | by rewrite Hr1, Hr0 | done
        | rewrite Hs1; apply Hnone1; [names_differ | names_differ |];
          apply Hnone0; [names_differ | names_differ | apply HfreshG]
        | rewrite Hs1; apply Hnone1; [names_differ | names_differ |];
          apply Hnone0; [names_differ | names_differ | apply HfreshG] |]
    end.
    rewrite Hrun2. rewrite Hs1 in Hs2, Hnone2.
    match goal with |- context [@dense_layer _ ?l ?k ?b ?x ?n ?a g2] =>
      destruct (dense_layer_fresh b1 l k b x n a g2)
        as (g3 & Hrun3 & Hs3 & Hr3 & Hnone3);
        [exact Hrank | by rewrite Hr2, Hr1, Hr0 | done
        | rewrite Hs2; apply Hnone2; [names_differ | names_differ |];
          apply Hnone1; [names_differ | names_differ |];
          apply Hnone0; [names_differ | names_differ | apply HfreshG]
        | rewrite Hs2; apply Hnone2; [names_differ | names_differ |];
          apply Hnone1; [names_differ | names_differ |];
          apply Hnone0; [names_differ | names_differ | apply HfreshG] |]
    end.
    rewrite Hrun3.
    match goal with |- context [tf_index_last_0 ?v] =>
      destruct (tf_index_last_0_shape v B T) as (value & Hvalue & _);
        [unfold dense_at, replace_last; cbn [shape]; by rewrite Hshape|];
      rewrite Hvalue
    end.
    by eexists _, _.
Qed.

Lemma DenseBitwise_body_skips_256_layer_witness :
  @DenseBitwiseCategoricalPolicy_body zero_weights
    empty_hparams (sample_features [2; 3; 5] 4) empty_graph
  = @DenseBitwiseCategoricalPolicy_body (ones_in_layer "dense_bitwise/fully_connected")
      empty_hparams (sample_features [2; 3; 5] 4) empty_graph ∧
  ∃ out g' logits value,
    @DenseBitwiseCategoricalPolicy_body zero_weights
      empty_hparams (sample_features [2; 3; 5] 4) empty_graph = (Ok out, g') ∧
    out !! "target_action" = Some logits ∧
    out !! "target_value" = Some value ∧
    variables g' !! "dense_bitwise/fully_connected/biases" = Some [256] ∧
    variables g' !! "dense_bitwise/fully_connected_1/biases" = Some [128] ∧
    variables g' !! "dense_bitwise/fully_connected_2/weights" = Some [128; 4].
Proof.
  destruct (DenseBitwise_body_skips_256_layer zero_weights
              (ones_in_layer "dense_bitwise/fully_connected")
              empty_hparams (sample_features [2; 3; 5] 4) empty_graph)
    as (Hsame & Hinv & Hruns).
  - intros l act x n Hl. simpl. by rewrite bool_decide_false.
  - reflexivity.
  - split; [exact Hsame|].
    destruct (Hruns (tf_constant 7 [2; 3; 5]) (tf_constant 7 [6; 5])
                (tf_zeros [2; 3; 32]) 4) as (out & g' & Hrun);
      [reflexivity | reflexivity | reflexivity | reflexivity | discriminate
      | reflexivity |].
    destruct (Hinv out g' Hrun)
      as (obs & x & flat_x & N & value & _ & _ & _ & HN & Hl & _ & Hv & _ & Hb0
          & _ & Hb1 & Hw2 & _).
    injection HN as <-.
    eexists out, g', _, value. by repeat split.
Defined.

(** ** Action-space validation *)

(** C6, as the code has it.  [get_policy] raises its [ValueError] whenever
    the action space is not a [Discrete], and [feed_forward_gaussian_fun]
    raises its own whenever the action space is not a [Box]; each does so
    with the graph untouched, whatever the registry and the numerics are.
    So [get_policy] rejects every [Box] and [feed_forward_gaussian_fun] every
    [Discrete].  On an accepted action space the check raises nothing: the
    outcome is that of building the network. *)
Theorem action_space_validation (backend : Backend)
    (registry : gmap string model_body) (observations : Tensor)
    (hparams config : HParams) (action_space : space) (g : graph) :
  (isinstance_Discrete action_space = false →
     get_policy registry observations hparams action_space g
     = (Raise (ValueError "Expecting discrete action space."), g)) ∧
  (isinstance_Box action_space = false →
     feed_forward_gaussian_fun action_space config observations g
     = (Raise (ValueError "Expecting continuous action space."), g)) ∧
  (∀ dims, get_policy registry observations hparams (Box dims) g
     = (Raise (ValueError "Expecting discrete action space."), g)) ∧
  (∀ n, feed_forward_gaussian_fun (Discrete n) config observations g
     = (Raise (ValueError "Expecting continuous action space."), g)) ∧
  (isinstance_Discrete action_space = true →
     get_policy registry observations hparams action_space g
     = build_policy registry observations hparams action_space g) ∧
  (isinstance_Box action_space = true →
     feed_forward_gaussian_fun action_space config observations g
     = build_gaussian action_space config observations g).
Proof.
  unfold get_policy, feed_forward_gaussian_fun.
  repeat split; try done; by intros ->.
Qed.

Lemma action_space_validation_witness :
  get_policy (@rl_models zero_weights) (tf_constant 7 [2; 3; 5])
    sample_ppo_hparams (MultiDiscrete [3; 3]) empty_graph
  = (Raise (ValueError "Expecting discrete action space."), empty_graph) ∧
  @feed_forward_gaussian_fun zero_weights (MultiDiscrete [3; 3])
    sample_ppo_hparams (tf_constant 7 [2; 3; 5]) empty_graph
  = (Raise (ValueError "Expecting continuous action space."), empty_graph).
Proof.
  destruct (action_space_validation zero_weights (@rl_models zero_weights)
              (tf_constant 7 [2; 3; 5]) sample_ppo_hparams sample_ppo_hparams
              (MultiDiscrete [3; 3]) empty_graph) as (Hd & Hb & _).
  split; [apply Hd | apply Hb]; reflexivity.
Defined.

(** A [ValueError] also comes out of the network construction, on action
    spaces the checks accept: the small CNN policy, which is what
    [ppo_original_params] names, refuses observations that are not image
    sequences; and a second [feed_forward_gaussian_fun] in the same variable
    scope finds the weights of its first layer already there. *)
Lemma value_error_on_accepted_action_space :
  isinstance_Discrete (Discrete 4) = true ∧
  (get_policy (@rl_models zero_weights) (tf_constant 7 [2; 3; 5])
     sample_ppo_hparams (Discrete 4) empty_graph).1
  = Raise (ValueError "Convolution expects input with rank 4") ∧
  isinstance_Box (Box [1]) = true ∧
  let first := @feed_forward_gaussian_fun zero_weights (Box [1])
                 sample_ppo_hparams (tf_constant 7 [2; 3; 5]) empty_graph in
  (∃ out, first.1 = Ok out) ∧
  (@feed_forward_gaussian_fun zero_weights (Box [1])
     sample_ppo_hparams (tf_constant 7 [2; 3; 5]) first.2).1
  = Raise (ValueError
      "Variable network_parameters/policy/fully_connected/weights already exists, disallowed.").
Proof.
  split; [reflexivity|]. split; [vm_compute; reflexivity|].
  split; [reflexivity|]. split.
  - eexists. vm_compute. reflexivity.
  - vm_compute. reflexivity.
Qed.

(** ** The model at work *)

Example dqn_original_params_runs :
  ∃ hp, dqn_original_params [] = (Ok 0, [OHParams hp]) ∧
    hp_attrs hp !! "num_frames" = Some (Int 1000000) ∧
    hp_attrs hp !! "time_limit" = Some (Int 27000).
Proof. eexists. split; [vm_compute; reflexivity|]. split; reflexivity. Qed.

Example rlmf_tiny_runs :
  ∃ hp, rlmf_tiny [OOther "older"] = (Ok 1, [OOther "older"; OHParams hp]) ∧
    hp_attrs hp !! "ppo_epochs_num" = Some (Int 100) ∧
    hp_attrs hp !! "game" = Some (Str "pong").
Proof. eexists. split; [vm_compute; reflexivity|]. split; reflexivity. Qed.

Example add_hparam_refuses_taken_name :
  (derive dqn_atari_base [AddHparam "num_frames" (Int 3)] []).1
  = Raise (ValueError "Hyperparameter name is reserved: num_frames").
Proof. vm_compute. reflexivity. Qed.

Example sample_ppo_hparams_policy :
  hp_attrs sample_ppo_hparams !! "policy_network"
  = Some (Str "feed_forward_cnn_small_categorical_policy").
Proof. vm_compute. reflexivity. Qed.

Example clip_logits_sample :
  clip_logits sample_logits (sample_config (Float 4))
  = Ok {| shape := [1; 2; 3];
          entries := [Qmin (2 - -3) 4; Qmin (-3 - -3) 4; Qmin (0.5 - -3) 4;
                      Qmin (7 - -3) 4; Qmin (-1 - -3) 4; Qmin (4 - -3) 4]%Q |}.
Proof. reflexivity. Qed.

Example get_policy_random :
  (get_policy (@rl_models zero_weights) (tf_constant 7 [1; 2; 5])
     (hp_setattr "policy_network" (Str "random_policy") empty_hparams)
     (Discrete 4) empty_graph).1
  = Ok (tf_constant (1 / 4) [1; 2; 4], tf_zeros [1; 2]).
Proof. vm_compute. reflexivity. Qed.

Example get_policy_unregistered :
  (get_policy (@rl_models zero_weights) (tf_constant 7 [1; 2; 5])
     (hp_setattr "policy_network" (Str "no_such_policy") empty_hparams)
     (Discrete 4) empty_graph).1
  = Raise (LookupError "Model no_such_policy never registered.").
Proof. vm_compute. reflexivity. Qed.

(** * Further properties *)

(** ** clip_logits: what clipping keeps *)

Lemma clip_logits_positive (logits : Tensor) (config : HParams) value c :
  hp_attrs config !! "logits_clip" = Some value →
  number_value value = Some c → (0 < c)%Q →
  clip_logits logits config
  = Ok (tf_minimum_scalar (tf_sub_scalar logits (tf_reduce_min logits)) c).
Proof.
  intros Hattr Hnum Hc. unfold clip_logits, getattr_default. rewrite Hattr. simpl.
  rewrite (py_gt_zero_number _ _ Hnum). simpl.
  apply Qltb_lt in Hc. rewrite Hc.
  by rewrite (as_float_scalar_number _ _ Hnum).
Qed.

Lemma clipped_entries (logits : Tensor) (c : Q) :
  entries (tf_minimum_scalar (tf_sub_scalar logits (tf_reduce_min logits)) c)
  = (λ x, Qmin (x - tf_reduce_min logits) c) <$> entries logits.
Proof. simpl. by rewrite <- list_fmap_compose. Qed.

Lemma Qmin_cases (a b : Q) : Qmin a b = a ∨ Qmin a b = b.
Proof.
  unfold Qmin, GenericMinMax.gmin. destruct (a ?= b)%Q; auto.
Qed.

Lemma foldl_Qmin_elem xs x : foldl Qmin x xs ∈ x :: xs.
Proof.
  revert x. induction xs as [|y xs IH]; intros x; simpl.
  - apply list_elem_of_here.
  - specialize (IH (Qmin x y)). apply elem_of_cons in IH as [Heq|Hin].
    + rewrite Heq. destruct (Qmin_cases x y) as [->| ->].
      * apply list_elem_of_here.
      * apply list_elem_of_further, list_elem_of_here.
    + by do 2 apply list_elem_of_further.
Qed.

(** On a tensor with entries, the reduced minimum is one of them. *)
Lemma tf_reduce_min_elem t : entries t ≠ [] → tf_reduce_min t ∈ entries t.
Proof.
  unfold tf_reduce_min. destruct (entries t) as [|x xs]; [done|].
  intros _. apply foldl_Qmin_elem.
Qed.

Lemma Forall2_Qeq_fmap (f g : Q → Q) (l : list Q) :
  (∀ x, x ∈ l → (f x == g x)%Q) → Forall2 Qeq (f <$> l) (g <$> l).
Proof.
  induction l as [|x l IH]; intros H; simpl; constructor.
  - apply H, list_elem_of_here.
  - apply IH. intros y Hy. by apply H, list_elem_of_further.
Qed.

Lemma clipped_entry_range (m c x : Q) :
  (m <= x)%Q → (0 < c)%Q →
  (0 <= Qmin (x - m) c)%Q ∧ (Qmin (x - m) c <= c)%Q.
Proof.
  intros Hm Hc. split; [|apply Q.le_min_r].
  apply Q.min_glb; [|by apply Qlt_le_weak].
  rewrite <- (Qplus_opp_r m). by apply Qplus_le_compat; [|apply Qle_refl].
Qed.

Lemma Forall2_Qeq_fmap_id (f : Q → Q) (l : list Q) :
  (∀ x, x ∈ l → (f x == x)%Q) → Forall2 Qeq (f <$> l) l.
Proof.
  intros H. rewrite <- (list_fmap_id l) at 2. by apply Forall2_Qeq_fmap.
Qed.

(** The clipped tensor has 0 as its least entry. *)
Lemma clipped_reduce_min (logits : Tensor) (c : Q) :
  entries logits ≠ [] → (0 < c)%Q →
  (tf_reduce_min (tf_minimum_scalar (tf_sub_scalar logits (tf_reduce_min logits)) c)
   == 0)%Q.
Proof.
  intros Hne Hc.
  set (out := tf_minimum_scalar (tf_sub_scalar logits (tf_reduce_min logits)) c).
  assert (entries out ≠ []) as Hout.
  { unfold out. rewrite clipped_entries. by destruct (entries logits). }
  apply Qle_antisym.
  - pose proof (tf_reduce_min_elem logits Hne) as Hm.
    assert (Qmin (tf_reduce_min logits - tf_reduce_min logits) c ∈ entries out) as Hin.
    { unfold out. rewrite clipped_entries.
      apply (list_elem_of_fmap_2 (λ x, Qmin (x - tf_reduce_min logits) c) _ _ Hm). }
    apply tf_reduce_min_le in Hin. eapply Qle_trans; [exact Hin|].
    eapply Qle_trans; [apply Q.le_min_l|].
    unfold Qminus. rewrite Qplus_opp_r. apply Qle_refl.
  - pose proof (tf_reduce_min_elem out Hout) as Hin.
    unfold out in Hin at 2. rewrite clipped_entries in Hin.
    apply list_elem_of_fmap in Hin as (x & -> & Hx).
    apply clipped_entry_range; [by apply tf_reduce_min_le | done].
Qed.

(** X2. With clipping on, clipping a second time changes nothing. *)
Theorem clip_logits_idempotent (logits : Tensor) (config : HParams)
    (value : pyval) (c : Q) :
  hp_attrs config !! "logits_clip" = Some value →
  number_value value = Some c →
  (0 < c)%Q →
  ∃ once twice,
    clip_logits logits config = Ok once ∧
    clip_logits once config = Ok twice ∧
    tensor_equiv twice once.
Proof.
  intros Hattr Hnum Hc. eexists _, _.
  split; [by apply (clip_logits_positive _ _ value c)|].
  split; [by apply (clip_logits_positive _ _ value c)|].
  split; [done|].
  set (once := tf_minimum_scalar (tf_sub_scalar logits (tf_reduce_min logits)) c).
  rewrite (clipped_entries once).
  destruct (decide (entries logits = [])) as [Hnil|Hne].
  { unfold once. rewrite clipped_entries, Hnil. constructor. }
  apply Forall2_Qeq_fmap_id. intros y Hy.
  unfold once in Hy. rewrite clipped_entries in Hy.
  apply list_elem_of_fmap in Hy as (x & -> & Hx).
  destruct (clipped_entry_range (tf_reduce_min logits) c x) as [_ Hle];
    [by apply tf_reduce_min_le | done |].
  pose proof (clipped_reduce_min logits c Hne Hc) as Hzero. fold once in Hzero.
  transitivity (Qmin (Qmin (x - tf_reduce_min logits) c - 0) c).
  - apply Q.min_compat; [|reflexivity].
    unfold Qminus. apply Qplus_comp; [reflexivity|]. by apply Qopp_comp.
  - eapply Qeq_trans; [|by apply Q.min_l].
    apply Q.min_compat; [ring|reflexivity].
Qed.

Lemma clip_logits_idempotent_witness :
  ∃ once twice,
    clip_logits sample_logits (sample_config (Float 4)) = Ok once ∧
    clip_logits once (sample_config (Float 4)) = Ok twice ∧
    tensor_equiv twice once.
Proof.
  apply (clip_logits_idempotent sample_logits (sample_config (Float 4))
           (Float 4) 4); reflexivity.
Defined.

(** X3. With clipping on, [clip_logits] keeps the order of the logits,
    entry for entry; on a tensor with entries it sends a least logit to 0,
    and every logit that exceeds the least one by the threshold or more to
    the threshold. *)
Theorem clip_logits_order (logits : Tensor) (config : HParams)
    (value : pyval) (c : Q) :
  hp_attrs config !! "logits_clip" = Some value →
  number_value value = Some c →
  (0 < c)%Q →
  ∃ out, clip_logits logits config = Ok out ∧
    length (entries out) = length (entries logits) ∧
    (∀ i j x y, entries logits !! i = Some x → entries logits !! j = Some y →
       (x <= y)%Q →
       ∃ x' y', entries out !! i = Some x' ∧ entries out !! j = Some y' ∧
         (x' <= y')%Q) ∧
    (entries logits ≠ [] →
       ∃ i x, entries logits !! i = Some x ∧ x = tf_reduce_min logits ∧
         ∃ x', entries out !! i = Some x' ∧ (x' == 0)%Q) ∧
    (∀ i x, entries logits !! i = Some x → (tf_reduce_min logits + c <= x)%Q →
       ∃ x', entries out !! i = Some x' ∧ (x' == c)%Q).
Proof.
  intros Hattr Hnum Hc. eexists. split; [by apply (clip_logits_positive _ _ value c)|].
  rewrite clipped_entries. split; [apply length_fmap|]. split; [|split].
  - intros i j x y Hi Hj Hxy. eexists _, _.
    rewrite !list_lookup_fmap, Hi, Hj. simpl. split; [done|]. split; [done|].
    apply Q.min_le_compat_r. unfold Qminus.
    by apply Qplus_le_compat; [|apply Qle_refl].
  - intros Hne. apply tf_reduce_min_elem, list_elem_of_lookup in Hne as [i Hi].
    exists i, (tf_reduce_min logits). split; [done|]. split; [done|].
    eexists. rewrite list_lookup_fmap, Hi. simpl. split; [done|].
    unfold Qminus. rewrite Qplus_opp_r. apply Q.min_l. by apply Qlt_le_weak.
  - intros i x Hi Hx. eexists. rewrite list_lookup_fmap, Hi. simpl. split; [done|].
    apply Q.min_r. apply (Qplus_le_l _ _ (tf_reduce_min logits)).
    eapply Qle_trans; [|apply Qle_lteq; right].
    + rewrite Qplus_comm. exact Hx.
    + ring.
Qed.

Lemma clip_logits_order_witness :
  ∃ out, clip_logits sample_logits (sample_config (Float 4)) = Ok out ∧
    length (entries out) = length (entries sample_logits) ∧
    (∀ i j x y, entries sample_logits !! i = Some x →
       entries sample_logits !! j = Some y → (x <= y)%Q →
       ∃ x' y', entries out !! i = Some x' ∧ entries out !! j = Some y' ∧
         (x' <= y')%Q) ∧
    (entries sample_logits ≠ [] →
       ∃ i x, entries sample_logits !! i = Some x ∧ x = tf_reduce_min sample_logits ∧
         ∃ x', entries out !! i = Some x' ∧ (x' == 0)%Q) ∧
    (∀ i x, entries sample_logits !! i = Some x →
       (tf_reduce_min sample_logits + 4 <= x)%Q →
       ∃ x', entries out !! i = Some x' ∧ (x' == 4)%Q).
Proof.
  apply (clip_logits_order sample_logits (sample_config (Float 4)) (Float 4) 4);
    reflexivity.
Defined.

(** ** Presets: when construction returns *)

Lemma derive_app B a b h : derive (derive B a) b h = derive B (a ++ b) h.
Proof.
  unfold derive, mbind, M_bind. destruct (B h) as [[l|e] h1]; [|done].
  rewrite exec_all_app. unfold mbind, M_bind.
  by destruct (exec_all l a h1) as [[[]|e] h2].
Qed.

Lemma presets_over_basic_params1_spec kw P body :
  (P, body) ∈ presets_over_basic_params1 kw →
  (∀ h, P h = derive (basic_params1 kw) body h) ∧ adds_fresh [] body = true.
Proof.
  unfold presets_over_basic_params1. rewrite !elem_of_cons, elem_of_nil.
  intros H. repeat destruct H as [H|H]; try done; simplify_eq;
    (split; [intros h | vm_compute; reflexivity]).
  - reflexivity.
  - apply derive_app.
  - reflexivity.
  - unfold ppo_atari_base, ppo_discrete_action_base, ppo_base_v1.
    rewrite !derive_app. reflexivity.
  - unfold ppo_original_params, ppo_atari_base, ppo_discrete_action_base, ppo_base_v1.
    rewrite !derive_app. reflexivity.
  - unfold ppo_pong_ae_base, ppo_original_params, ppo_atari_base,
      ppo_discrete_action_base, ppo_base_v1.
    rewrite !derive_app. reflexivity.
Qed.

(** What a list of fresh additions and plain assignments does to an
    instance [hpB] that still agrees with [hp0] outside the names [seen]. *)
Lemma exec_all_adds body : ∀ seen hp0 hpB,
  same_fields_but seen hp0 hpB → adds_fresh seen body = true →
  ∃ r hp,
    (∀ h, exec_all (length h) body (h ++ [OHParams hpB]) = (r, h ++ [OHParams hp])) ∧
    match r with
    | Ok _ => ∀ name, name ∈ added_names body → is_free hp0 name = true
    | Raise e => ∃ name, name ∈ added_names body ∧ is_free hp0 name = false ∧
        e = ValueError ("Hyperparameter name is reserved: " +:+ name)
    end.
Proof.
  induction body as [|s body IH]; intros seen hp0 hpB Hsame Hfresh.
  { exists (Ok tt), hpB. split; [done|]. intros name Hin. by apply elem_of_nil in Hin. }
  destruct s as [name v|name v|name v]; simpl in Hfresh; [| |done].
  - destruct (IH (name :: seen) hp0 (hp_setattr name v hpB)) as (r & hp & Hrun & Hr);
      [|done|].
    { intros n Hn. apply not_elem_of_cons in Hn as [Hne Hn].
      simpl. rewrite lookup_insert_ne by done. by apply Hsame. }
    exists r, hp. split; [|exact Hr].
    intros h. simpl. unfold setattr, mbind, M_bind, load_hparams, store_hparams.
    rewrite lookup_snoc, insert_snoc. apply Hrun.
  - apply andb_true_iff in Hfresh as [Hfresh Hrest].
    apply andb_true_iff in Hfresh as [Hseen Hvalue].
    apply bool_decide_eq_true in Hseen. apply negb_true_iff in Hvalue.
    assert (is_free hpB name = is_free hp0 name) as Hfree.
    { unfold is_free, getattr_default. by destruct (Hsame name Hseen) as [-> _]. }
    destruct (is_free hp0 name) eqn:H0.
    + assert (∃ ty, ∀ h, add_hparam (length h) name v (h ++ [OHParams hpB])
                = (Ok tt, h ++ [OHParams (hp_setattr name v (hp_settype name ty hpB))]))
        as [ty Hadd].
      { unfold is_free in Hfree.
        destruct v as [a|[|a items]|[|a items]]; try done; eexists; intros h;
          unfold add_hparam; run_on_self; rewrite Hfree; run_on_self; reflexivity. }
      destruct (IH (name :: seen) hp0 (hp_setattr name v (hp_settype name ty hpB)))
        as (r & hp & Hrun & Hr); [|done|].
      { intros n Hn. apply not_elem_of_cons in Hn as [Hne Hn].
        simpl. rewrite !lookup_insert_ne by done. by apply Hsame. }
      exists r, hp. split.
      * intros h. simpl. unfold mbind, M_bind. rewrite Hadd. apply Hrun.
      * destruct r as [[]|e].
        -- intros n Hn. simpl in Hn. apply elem_of_cons in Hn as [->|Hn]; [done|].
           by apply Hr.
        -- destruct Hr as (n & Hn & Hr). exists n. split; [|done].
           simpl. by apply list_elem_of_further.
    + exists (Raise (ValueError ("Hyperparameter name is reserved: " +:+ name))), hpB.
      split.
      * intros h. simpl. unfold mbind, M_bind, add_hparam. run_on_self.
        unfold is_free in Hfree. by rewrite Hfree.
      * exists name. split; [simpl; apply list_elem_of_here | done].
Qed.

(** X4. A preset over [basic_params1] raises whatever [basic_params1]
    raises; and when [basic_params1] returns an instance, the preset returns
    exactly when that instance holds nothing but [None] under every name the
    preset registers with [add_hparam], and raises the [ValueError] of one
    such taken name otherwise. *)
Theorem presets_over_basic_params1_return_iff (kw : list (string * pyval))
    (P : M heap loc) (body : list stmt) (h : heap) :
  (P, body) ∈ presets_over_basic_params1 kw →
  match basic_params1 kw h with
  | (Ok lb, hb) =>
      ∃ b, hb !! lb = Some (OHParams b) ∧
        ((∃ l h', P h = (Ok l, h')) ↔
         (∀ name, name ∈ added_names body → is_free b name = true)) ∧
        (∀ e h', P h = (Raise e, h') →
           ∃ name, name ∈ added_names body ∧ is_free b name = false ∧
             e = ValueError ("Hyperparameter name is reserved: " +:+ name))
  | (Raise e, hb) => P h = (Raise e, hb)
  end.
Proof.
  intros Hin. destruct (presets_over_basic_params1_spec kw P body Hin) as [HP Hfresh].
  rewrite (HP h). destruct (basic_params1_is_preset kw) as (rB & hpB & HB).
  unfold derive, mbind, M_bind. rewrite (HB h). destruct rB as [[]|eB]; [|done].
  destruct (exec_all_adds body [] hpB hpB (same_fields_refl _ _) Hfresh)
    as (r & hp & Hrun & Hr).
  exists hpB. rewrite lookup_snoc. split; [done|]. rewrite Hrun.
  destruct r as [[]|e].
  - split; [|done]. split; [done|]. intros _. by eexists _, _.
  - split.
    + split; [by intros (l & h' & Heq)|].
      intros Hall. destruct Hr as (name & Hname & Htaken & _).
      by rewrite (Hall name Hname) in Htaken.
    + intros e' h' Heq. by simplify_eq.
Qed.

Lemma presets_over_basic_params1_return_iff_witness :
  match basic_params1 sample_basic_params1_kwargs [] with
  | (Ok lb, hb) =>
      ∃ b, hb !! lb = Some (OHParams b) ∧
        ((∃ l h', ppo_discrete_action_base sample_basic_params1_kwargs [] = (Ok l, h')) ↔
         (∀ name, name ∈ added_names (ppo_base_v1_body ++ ppo_discrete_action_base_body) →
            is_free b name = true)) ∧
        (∀ e h', ppo_discrete_action_base sample_basic_params1_kwargs [] = (Raise e, h') →
           ∃ name,
             name ∈ added_names (ppo_base_v1_body ++ ppo_discrete_action_base_body) ∧
             is_free b name = false ∧
             e = ValueError ("Hyperparameter name is reserved: " +:+ name))
  | (Raise e, hb) =>
      ppo_discrete_action_base sample_basic_params1_kwargs [] = (Raise e, hb)
  end.
Proof.
  apply (presets_over_basic_params1_return_iff sample_basic_params1_kwargs
           (ppo_discrete_action_base sample_basic_params1_kwargs)
           (ppo_base_v1_body ++ ppo_discrete_action_base_body) []).
  unfold presets_over_basic_params1. apply list_elem_of_further, list_elem_of_here.
Defined.

Lemma rlmf_tiny_is_preset : is_preset rlmf_tiny.
Proof. apply derive_is_preset, rlmf_base_is_preset. Qed.

Lemma dqn_original_params_is_preset : is_preset dqn_original_params.
Proof. apply derive_is_preset, dqn_atari_base_is_preset. Qed.

(** X5. The presets that do not go through [basic_params1] return on every
    store: each allocates one new instance at the next free reference, the
    same instance whatever the store holds, and raises nothing. *)
Theorem standalone_presets_always_return (P : M heap loc) :
  P ∈ standalone_presets →
  ∃ hp, ∀ h, P h = (Ok (length h), h ++ [OHParams hp]).
Proof.
  unfold standalone_presets. rewrite !elem_of_cons, elem_of_nil.
  intros H.
  assert (is_preset P ∧ ∃ l h0, P [] = (Ok l, h0)) as [(r & hp & HP) (l & h0 & Hrun)].
  { repeat destruct H as [H|H]; try done; subst P;
      (split; [| eexists _, _; vm_compute; reflexivity]).
    - apply new_HParams_is_preset.
    - apply dqn_atari_base_is_preset.
    - apply dqn_original_params_is_preset.
    - apply rlmf_original_is_preset.
    - apply rlmf_base_is_preset.
    - apply rlmf_tiny_is_preset. }
  destruct (builds_ok_inv _ _ _ _ _ _ HP Hrun) as (-> & _ & _).
  exists hp. apply HP.
Qed.

Lemma standalone_presets_always_return_witness :
  ∃ hp, ∀ h, dqn_original_params h = (Ok (length h), h ++ [OHParams hp]).
Proof.
  apply (standalone_presets_always_return dqn_original_params).
  unfold standalone_presets. do 2 apply list_elem_of_further. apply list_elem_of_here.
Defined.

(** ** Presets and clipping *)

Lemma add_hparam_ok_attr h name v hp1 h' :
  add_hparam (length h) name v (h ++ [OHParams hp1]) = (Ok tt, h') →
  ∃ hp2, h' = h ++ [OHParams hp2] ∧ hp_attrs hp2 !! name = Some v.
Proof.
  unfold add_hparam. run_on_self.
  destruct (negb (is_None (getattr_default hp1 name ANone))); [done|].
  destruct v as [a|[|a items]|[|a items]]; run_on_self; intros Hrun; simplify_eq;
    (eexists; split; [reflexivity | simpl; apply lookup_insert_eq]).
Qed.

(** A name registered with [add_hparam] and not written afterwards holds
    the registered value. *)
Lemma exec_all_last_add pre name v post hpB hp :
  (∀ h, exec_all (length h) (pre ++ AddHparam name v :: post) (h ++ [OHParams hpB])
        = (Ok tt, h ++ [OHParams hp])) →
  name ∉ stmt_name <$> post →
  hp_attrs hp !! name = Some v.
Proof.
  intros Hrun Hpost. specialize (Hrun []).
  rewrite exec_all_app in Hrun. unfold mbind, M_bind in Hrun.
  destruct (exec_all_on_self pre hpB) as (r1 & hp1 & Hrun1 & _).
  rewrite (Hrun1 []) in Hrun. destruct r1 as [[]|e]; [|done].
  simpl in Hrun. unfold mbind, M_bind in Hrun.
  destruct (add_hparam 0 name v [OHParams hp1]) as [[[]|e] h2] eqn:Hadd; [|done].
  apply (add_hparam_ok_attr [] name v hp1 h2) in Hadd as (hp2 & -> & Hattr).
  destruct (exec_all_on_self post hp2) as (r3 & hp3 & Hrun3 & Hsame3).
  pose proof (Hrun3 []) as Hrest. simpl in Hrest, Hrun.
  rewrite Hrest in Hrun. simplify_eq.
  by destruct (Hsame3 name Hpost) as [-> _].
Qed.

Lemma derive_ok_inv B body rB hpB h l h' :
  builds B rB hpB → derive B body h = (Ok l, h') →
  ∃ hp, l = length h ∧ h' = h ++ [OHParams hp] ∧
    ∀ h, exec_all (length h) body (h ++ [OHParams hpB]) = (Ok tt, h ++ [OHParams hp]).
Proof.
  intros HB Hrun.
  destruct (derive_builds B body rB hpB HB) as (r & hp & HP & _ & Hok).
  destruct (builds_ok_inv _ _ _ _ _ _ HP Hrun) as (-> & -> & ->).
  exists hp. destruct (Hok eq_refl) as [_ Hexec]. done.
Qed.

(** X6. Every PPO preset leaves logits clipping off: the instance it
    returns holds [logits_clip = 0.0], so [clip_logits] under it gives back
    the logits it is handed. *)
Theorem ppo_presets_leave_clipping_off (kw : list (string * pyval))
    (P : M heap loc) (h : heap) (l : loc) (h' : heap) :
  P ∈ ppo_presets kw →
  P h = (Ok l, h') →
  ∃ p, h' !! l = Some (OHParams p) ∧
    hp_attrs p !! "logits_clip" = Some (Float 0.0) ∧
    ∀ logits, clip_logits logits p = Ok logits.
Proof.
  intros Hin Hrun.
  assert (∃ post, (P, take 20 ppo_base_v1_body
                      ++ AddHparam "logits_clip" (Float 0.0) :: post)
                    ∈ presets_over_basic_params1 kw ∧
                  "logits_clip" ∉ stmt_name <$> post) as (post & Hbody & Hpost).
  { unfold ppo_presets in Hin. rewrite !elem_of_cons, elem_of_nil in Hin.
    unfold presets_over_basic_params1.
    destruct Hin as [->|[->|[->|[->|[->|[]]]]]].
    - exists (drop 21 ppo_base_v1_body). split; [apply list_elem_of_here | not_in_names].
    - exists (drop 21 ppo_base_v1_body ++ ppo_discrete_action_base_body).
      split; [apply list_elem_of_further, list_elem_of_here | not_in_names].
    - exists ((drop 21 ppo_base_v1_body ++ ppo_discrete_action_base_body)
              ++ ppo_atari_base_body).
      split; [do 3 apply list_elem_of_further; apply list_elem_of_here | not_in_names].
    - exists (((drop 21 ppo_base_v1_body ++ ppo_discrete_action_base_body)
               ++ ppo_atari_base_body) ++ ppo_original_params_body).
      split; [do 4 apply list_elem_of_further; apply list_elem_of_here | not_in_names].
    - exists ((((drop 21 ppo_base_v1_body ++ ppo_discrete_action_base_body)
                ++ ppo_atari_base_body) ++ ppo_original_params_body)
              ++ ppo_pong_ae_base_body).
      split; [do 5 apply list_elem_of_further; apply list_elem_of_here | not_in_names]. }
  destruct (presets_over_basic_params1_spec kw P _ Hbody) as [HP _].
  rewrite (HP h) in Hrun.
  destruct (basic_params1_is_preset kw) as (rB & hpB & HB).
  destruct (derive_ok_inv _ _ _ _ _ _ _ HB Hrun) as (p & -> & -> & Hexec).
  exists p. rewrite lookup_snoc. split; [done|].
  assert (hp_attrs p !! "logits_clip" = Some (Float 0.0)) as Hclip.
  { by apply (exec_all_last_add (take 20 ppo_base_v1_body) _ _ post hpB p). }
  split; [exact Hclip|].
  intros logits. unfold clip_logits, getattr_default. by rewrite Hclip.
Qed.

Lemma ppo_presets_leave_clipping_off_witness :
  ∃ p, (ppo_original_params sample_basic_params1_kwargs []).2 !! 0
       = Some (OHParams p) ∧
    hp_attrs p !! "logits_clip" = Some (Float 0.0) ∧
    ∀ logits, clip_logits logits p = Ok logits.
Proof.
  apply (ppo_presets_leave_clipping_off sample_basic_params1_kwargs
           (ppo_original_params sample_basic_params1_kwargs) []).
  - unfold ppo_presets. do 3 apply list_elem_of_further. apply list_elem_of_here.
  - vm_compute. reflexivity.
Defined.

(** ** What the policy bodies return *)

Lemma getitem_ok {V} (d : gmap string V) key v :
  getitem d key = Ok v → d !! key = Some v.
Proof. unfold getitem. destruct (d !! key); by intros [= <-]. Qed.

Lemma get_num_actions_ok (features : features_t) N :
  _get_num_actions features = Ok N →
  ∃ target_action, features !! "target_action" = Some target_action ∧
    shape target_action !! 2 = Some N.
Proof.
  unfold _get_num_actions, getitem, list_index, shape_list, mbind, outcome_bind.
  destruct (features !! "target_action") as [ta|]; [|done].
  destruct (shape ta !! 2) as [n|] eqn:Hn; [|done].
  intros [= <-]. by exists ta.
Qed.

Lemma flatten_observations_ok observations flat :
  flatten_observations observations = Ok flat →
  ∃ B T rest, shape observations = B :: T :: rest ∧
    shape flat = [B; T; num_elements rest].
Proof.
  unfold flatten_observations, tf_shape_at, tf_reshape, mbind, outcome_bind.
  destruct (shape observations) as [|B [|T rest]]; simpl; [done|done|].
  destruct (_ =? _); [|done]. intros [= <-]. by exists B, T, rest.
Qed.

Lemma clip_logits_shape logits config out :
  clip_logits logits config = Ok out → shape out = shape logits.
Proof.
  unfold clip_logits, mbind, outcome_bind.
  destruct (py_gt_zero _) as [[|]|e]; [| |done].
  - destruct (as_float_scalar _) as [c|e]; [|done]. by intros [= <-].
  - by intros [= <-].
Qed.

Lemma tf_reshape_batch_rank t dims x :
  tf_reshape t (None :: (Some <$> dims)) = Ok x →
  length (shape x) = S (length dims).
Proof.
  unfold tf_reshape.
  assert (filter (λ d : option nat, d = None) (Some <$> dims) = []) as Hnone.
  { induction dims as [|d dims IH]; [done|]. simpl.
    rewrite filter_cons_False by done. exact IH. }
  rewrite filter_cons_True by done. rewrite Hnone. simpl.
  destruct (_ || _); [done|]. intros [= <-]. simpl. by rewrite !length_fmap.
Qed.

Section Layers.

Context {backend : Backend}.

Lemma dense_at_shape layer x n act B T d :
  shape x = [B; T; d] → shape (dense_at layer x n act) = [B; T; n].
Proof. intros Hx. unfold dense_at, replace_last. simpl. by rewrite Hx. Qed.

Lemma dense_layer_ok layer kernel bias x n act g y g' :
  dense_layer layer kernel bias x n act g = (Ok y, g') →
  y = dense_at (scope g +:+ layer) x n act ∧
  scope g' = scope g ∧ reuse g' = reuse g.
Proof.
  destruct (dense_layer_run layer kernel bias x n act g)
    as (r & g1 & Hrun & Hs & Hr & _).
  rewrite Hrun. destruct r as [[]|e]; [|done]. by intros [= <- <-].
Qed.

Lemma dense_stack_ok sizes : ∀ k x g y g' B T d,
  dense_stack k x sizes g = (Ok y, g') →
  shape x = [B; T; d] →
  (∃ d', shape y = [B; T; d']) ∧ scope g' = scope g ∧ reuse g' = reuse g.
Proof.
  induction sizes as [|size sizes IH]; intros k x g y g' B T d; simpl.
  - intros [= <- <-] Hx. split; [by exists d | done].
  - unfold mbind, M_bind, fully_connected.
    destruct (dense_layer _ _ _ x size relu g) as [[x'|e] g1] eqn:Hl; [|done].
    apply dense_layer_ok in Hl as (-> & Hs & Hr).
    intros Hrun Hx.
    destruct (IH _ _ _ _ _ B T size Hrun) as (Hy & Hs' & Hr').
    { by apply (dense_at_shape _ _ _ _ B T d). }
    split; [done|]. by rewrite Hs', Hr'.
Qed.

Lemma conv2d_layer_ok layer kernel_name bias_name x filters kernel strides act
    g y g' :
  conv2d_layer layer kernel_name bias_name x filters kernel strides act g
  = (Ok y, g') →
  length (shape x) = 4 ∧ scope g' = scope g ∧ reuse g' = reuse g.
Proof.
  unfold conv2d_layer, conv2d_at, mbind, M_bind.
  destruct (length (shape x) =? 4) eqn:Hrank; [|done].
  apply Nat.eqb_eq in Hrank.
  destruct (layer_variables _ _ _ g) as [[[]|e] g1] eqn:Hvars; [|done].
  apply layer_variables_inv in Hvars as (Hs & Hr & _).
  by intros [= <- <-].
Qed.

Lemma tf_nn_dropout_shape x keep_prob y :
  tf_nn_dropout x keep_prob = Ok y → shape y = shape x.
Proof.
  unfold tf_nn_dropout. destruct (negb _); [done|].
  destruct (Qeq_bool _ _); by intros [= <-].
Qed.

End Layers.

Section Bodies.

Context {backend : Backend}.

Ltac layer_ok y g1 H :=
  match goal with
  | |- context [dense_layer ?l ?k ?b ?x ?n ?a ?G] =>
      destruct (dense_layer l k b x n a G) as [[y|?] g1] eqn:H; [|done];
      apply dense_layer_ok in H
  end.

Ltac conv_ok y g1 H :=
  match goal with
  | |- context [conv2d_layer ?l ?k ?b ?x ?f ?ks ?st ?a ?G] =>
      destruct (conv2d_layer l k b x f ks st a G) as [[y|?] g1] eqn:H; [|done];
      apply conv2d_layer_ok in H
  end.

Lemma FeedForwardCategoricalPolicy_body_inv hparams features g out g' :
  FeedForwardCategoricalPolicy_body hparams features g = (Ok out, g') →
  returns_policy true hparams features out ∧
  scope g' = scope g ∧ reuse g' = reuse g.
Proof.
  unfold FeedForwardCategoricalPolicy_body, mbind, M_bind, lift, variable_scope,
    fully_connected.
  destruct (getitem features "inputs") as [obs|e] eqn:Hin; [|done].
  destruct (flatten_observations obs) as [flat|e] eqn:Hflat; [|done].
  apply getitem_ok in Hin.
  apply flatten_observations_ok in Hflat as (B & T & rest & Hobs & Hflat).
  destruct (outcome_bind _ _ _ (getattr hparams "policy_layers")) as [pl|e]; [|done].
  match goal with |- context [dense_stack ?k ?x ?s ?g0] =>
    destruct (dense_stack k x s g0) as [[y|e] g1] eqn:Hds; [|done];
    apply (dense_stack_ok _ _ _ _ _ _ B T (num_elements rest)) in Hds as ((d' & Hy) & _ & _);
      [|exact Hflat]
  end.
  destruct (_get_num_actions features) as [N|e] eqn:HN; [|done].
  apply get_num_actions_ok in HN as (ta & Hta & HN).
  layer_ok raw g2 Hraw. destruct Hraw as (-> & _ & _).
  destruct (outcome_bind _ _ _ (getattr hparams "value_layers")) as [vl|e]; [|done].
  match goal with |- context [dense_stack ?k ?x ?s ?g0] =>
    destruct (dense_stack k x s g0) as [[z|e] g3] eqn:Hds'; [|done];
    apply (dense_stack_ok _ _ _ _ _ _ B T (num_elements rest)) in Hds' as ((d'' & Hz) & _ & _);
      [|exact Hflat]
  end.
  layer_ok v g4 Hv. destruct Hv as (-> & _ & _).
  match goal with |- context [tf_index_last_0 ?v] =>
    destruct (tf_index_last_0_shape v B T) as (value & Hvalue & Hv);
      [by apply (dense_at_shape _ _ _ _ B T d'')|]; rewrite Hvalue end.
  match goal with |- context [clip_logits ?raw hparams] =>
    destruct (clip_logits raw hparams) as [logits|e] eqn:Hclip; [|done];
    assert (shape raw = [B; T; N]) as Hraw by (by apply (dense_at_shape _ _ _ _ B T d'))
  end.
  intros [= <- <-]. split; [|done].
  eexists obs, ta, B, T, rest, N, _, logits, value. by repeat split.
Qed.

Lemma FeedForwardCnnSmallCategoricalPolicy_body_inv hparams features g out g' :
  FeedForwardCnnSmallCategoricalPolicy_body hparams features g = (Ok out, g') →
  returns_policy true hparams features out ∧
  scope g' = scope g ∧ reuse g' = reuse g ∧
  ∀ observations, features !! "inputs" = Some observations →
    length (shape observations) = 5.
Proof.
  unfold FeedForwardCnnSmallCategoricalPolicy_body, mbind, M_bind, lift,
    variable_scope, fully_connected, contrib_conv2d, shape_list.
  destruct (getitem features "inputs") as [obs|e] eqn:Hin; [|done].
  apply getitem_ok in Hin.
  destruct (tf_reshape obs _) as [x|e] eqn:Hx; [|done].
  apply tf_reshape_batch_rank in Hx.
  conv_ok x1 g1 Hc1. destruct Hc1 as (Hc1 & _ & _).
  cbn [tf_div_scalar shape] in Hc1.
  conv_ok x2 g2 Hc2.
  destruct (flatten_per_step (shape obs) x2) as [flat|e] eqn:Hflat; [|done].
  apply flatten_per_step_ok in Hflat as (B & T & rest & d & Hobs & Hflat).
  destruct (keep_prob_of _) as [keep_prob|e]; [|done].
  destruct (tf_nn_dropout flat keep_prob) as [flat'|e] eqn:Hdrop; [|done].
  apply tf_nn_dropout_shape in Hdrop. rewrite Hflat in Hdrop.
  layer_ok hidden g3 Hh. destruct Hh as (-> & _ & _).
  destruct (_get_num_actions features) as [N|e] eqn:HN; [|done].
  apply get_num_actions_ok in HN as (ta & Hta & HN).
  layer_ok raw g4 Hraw. destruct Hraw as (-> & _ & _).
  match goal with |- context [clip_logits ?raw hparams] =>
    destruct (clip_logits raw hparams) as [logits|e] eqn:Hclip; [|done];
    assert (shape raw = [B; T; N]) as Hraw
      by (apply (dense_at_shape _ _ _ _ B T 128);
          by apply (dense_at_shape _ _ _ _ B T d))
  end.
  layer_ok v g5 Hv. destruct Hv as (-> & _ & _).
  match goal with |- context [tf_index_last_0 ?v] =>
    destruct (tf_index_last_0_shape v B T) as (value & Hvalue & Hv);
      [apply (dense_at_shape _ _ _ _ B T 128);
       by apply (dense_at_shape _ _ _ _ B T d)|]; rewrite Hvalue end.
  intros [= <- <-]. split; [|split; [done|split; [done|]]].
  - eexists obs, ta, B, T, rest, N, _, logits, value. by repeat split.
  - intros obs' Hin'. rewrite Hin in Hin'. injection Hin' as <-.
    rewrite Hobs in Hx |- *. rewrite Hx in Hc1. simpl in Hc1.
    rewrite drop_0 in Hc1. simpl. lia.
Qed.

Lemma FeedForwardCnnSmallCategoricalPolicyNew_body_inv hparams features g out g' :
  FeedForwardCnnSmallCategoricalPolicyNew_body hparams features g = (Ok out, g') →
  returns_policy true hparams features out ∧
  scope g' = scope g ∧ reuse g' = reuse g ∧
  ∀ observations, features !! "inputs" = Some observations →
    length (shape observations) = 5.
Proof.
  unfold FeedForwardCnnSmallCategoricalPolicyNew_body, mbind, M_bind, lift,
    variable_scope, dense, layers_conv2d, shape_list.
  destruct (getitem features "inputs") as [obs|e] eqn:Hin; [|done].
  apply getitem_ok in Hin.
  destruct (tf_reshape obs _) as [x|e] eqn:Hx; [|done].
  apply tf_reshape_batch_rank in Hx.
  destruct (keep_prob_of _) as [keep_prob|e]; [|done].
  destruct (tf_nn_dropout _ keep_prob) as [x0|e] eqn:Hdrop0; [|done].
  apply tf_nn_dropout_shape in Hdrop0. cbn [tf_div_scalar shape] in Hdrop0.
  conv_ok x1 g1 Hc1. destruct Hc1 as (Hc1 & _ & _).
  destruct (tf_nn_dropout x1 keep_prob) as [x1'|e]; [|done].
  conv_ok x2 g2 Hc2.
  destruct (tf_nn_dropout x2 keep_prob) as [x2'|e]; [|done].
  conv_ok x3 g3 Hc3.
  destruct (flatten_per_step (shape obs) x3) as [flat|e] eqn:Hflat; [|done].
  apply flatten_per_step_ok in Hflat as (B & T & rest & d & Hobs & Hflat).
  destruct (tf_nn_dropout flat keep_prob) as [flat'|e] eqn:Hdrop; [|done].
  apply tf_nn_dropout_shape in Hdrop. rewrite Hflat in Hdrop.
  layer_ok hidden g4 Hh. destruct Hh as (-> & _ & _).
  destruct (_get_num_actions features) as [N|e] eqn:HN; [|done].
  apply get_num_actions_ok in HN as (ta & Hta & HN).
  layer_ok raw g5 Hraw. destruct Hraw as (-> & _ & _).
  match goal with |- context [clip_logits ?raw hparams] =>
    destruct (clip_logits raw hparams) as [logits|e] eqn:Hclip; [|done];
    assert (shape raw = [B; T; N]) as Hraw
      by (apply (dense_at_shape _ _ _ _ B T 128);
          by apply (dense_at_shape _ _ _ _ B T d))
  end.
  layer_ok v g6 Hv. destruct Hv as (-> & _ & _).
  match goal with |- context [tf_index_last_0 ?v] =>
    destruct (tf_index_last_0_shape v B T) as (value & Hvalue & Hv);
      [apply (dense_at_shape _ _ _ _ B T 128);
       by apply (dense_at_shape _ _ _ _ B T d)|]; rewrite Hvalue end.
  intros [= <- <-]. split; [|split; [done|split; [done|]]].
  - eexists obs, ta, B, T, rest, N, _, logits, value. by repeat split.
  - intros obs' Hin'. rewrite Hin in Hin'. injection Hin' as <-.
    rewrite Hobs in Hx |- *. rewrite Hdrop0, Hx in Hc1. simpl in Hc1.
    rewrite drop_0 in Hc1. simpl. lia.
Qed.

Lemma DenseBitwiseCategoricalPolicy_body_inv hparams features g out g' :
  DenseBitwiseCategoricalPolicy_body hparams features g = (Ok out, g') →
  returns_policy false hparams features out ∧
  scope g' = scope g ∧ reuse g' = reuse g.
Proof.
  unfold DenseBitwiseCategoricalPolicy_body, mbind, M_bind, lift,
    variable_scope, fully_connected, shape_list.
  destruct (getitem features "inputs") as [obs|e] eqn:Hin; [|done].
  apply getitem_ok in Hin.
  destruct (tf_reshape obs _) as [x|e]; [|done].
  destruct (flatten_per_step (shape obs) _) as [flat|e] eqn:Hflat; [|done].
  apply flatten_per_step_ok in Hflat as (B & T & rest & d & Hobs & Hflat).
  layer_ok wide g1 Hw.
  layer_ok hidden g2 Hh. destruct Hh as (-> & _ & _).
  destruct (_get_num_actions features) as [N|e] eqn:HN; [|done].
  apply get_num_actions_ok in HN as (ta & Hta & HN).
  layer_ok raw g3 Hraw. destruct Hraw as (-> & _ & _).
  layer_ok v g4 Hv. destruct Hv as (-> & _ & _).
  match goal with |- context [tf_index_last_0 ?v] =>
    destruct (tf_index_last_0_shape v B T) as (value & Hvalue & Hv);
      [apply (dense_at_shape _ _ _ _ B T 128);
       by apply (dense_at_shape _ _ _ _ B T d)|]; rewrite Hvalue end.
  intros [= <- <-]. split; [|done].
  eexists obs, ta, B, T, rest, N, _, _, value.
  repeat split; try done.
  apply (dense_at_shape _ _ _ _ B T 128). by apply (dense_at_shape _ _ _ _ B T d).
Qed.

Lemma get_variable_scope name dims g r g' :
  get_variable name dims g = (r, g') → scope g' = scope g ∧ reuse g' = reuse g.
Proof. intros H. by apply get_variable_inv in H as (? & ? & _). Qed.

Lemma RandomPolicy_body_inv hparams features g out g' :
  RandomPolicy_body hparams features g = (Ok out, g') →
  ∃ observations target_action N uniform,
    features !! "inputs" = Some observations ∧
    features !! "target_action" = Some target_action ∧
    shape target_action !! 2 = Some N ∧
    py_reciprocal N = Ok uniform ∧
    out = outputs (tf_constant uniform (take 2 (shape observations) ++ [N]))
                  (tf_zeros (take 2 (shape observations))) ∧
    scope g' = scope g ∧ reuse g' = reuse g.
Proof.
  unfold RandomPolicy_body, mbind, M_bind, lift.
  destruct (getitem features "inputs") as [obs|e] eqn:Hin; [|done].
  apply getitem_ok in Hin.
  destruct (get_variable "dummy_var" [] g) as [[name|e] g1] eqn:Hvar; [|done].
  apply get_variable_scope in Hvar as [Hscope Hreuse].
  destruct (_get_num_actions features) as [N|e] eqn:HN; [|done].
  apply get_num_actions_ok in HN as (ta & Hta & HN).
  destruct (py_reciprocal N) as [uniform|e] eqn:Hu; [|done].
  intros [= <- <-]. by exists obs, ta, N, uniform.
Qed.

Lemma rl_models_inv name body :
  rl_models !! name = Some body →
  (name = "feed_forward_categorical_policy" ∧
     body = FeedForwardCategoricalPolicy_body) ∨
  (name = "feed_forward_cnn_small_categorical_policy" ∧
     body = FeedForwardCnnSmallCategoricalPolicy_body) ∨
  (name = "feed_forward_cnn_small_categorical_policy_new" ∧
     body = FeedForwardCnnSmallCategoricalPolicyNew_body) ∨
  (name = "dense_bitwise_categorical_policy" ∧
     body = DenseBitwiseCategoricalPolicy_body) ∨
  (name = "random_policy" ∧ body = RandomPolicy_body).
Proof.
  intros H. apply elem_of_list_to_map_2 in H.
  rewrite !elem_of_cons, elem_of_nil in H.
  destruct H as [H|[H|[H|[H|[H|[]]]]]]; simplify_eq; auto 10.
Qed.

Lemma registry_model_ok registry hparams (body : model_body) :
  getattr hparams "policy_network" ≫= registry_model registry = Ok body →
  ∃ name, hp_attrs hparams !! "policy_network" = Some (Str name) ∧
    registry !! name = Some body.
Proof.
  unfold mbind, outcome_bind, getattr, registry_model.
  destruct (hp_attrs hparams !! "policy_network") as [[[| | | |name]| |]|]; try done.
  destruct (registry !! name) as [m|] eqn:Hm; [|done].
  intros [= <-]. by exists name.
Qed.

(** What a registered body returns: the network bodies on the one hand, the
    random policy on the other. *)
Lemma registered_body_cases name body hparams features g out g' :
  rl_models !! name = Some body →
  body hparams features g = (Ok out, g') →
  scope g' = scope g ∧ reuse g' = reuse g ∧
  ((name ≠ "random_policy" ∧ ∃ clips, returns_policy clips hparams features out) ∨
   (name = "random_policy" ∧
      ∃ observations target_action N uniform,
        features !! "inputs" = Some observations ∧
        features !! "target_action" = Some target_action ∧
        shape target_action !! 2 = Some N ∧
        py_reciprocal N = Ok uniform ∧
        out = outputs (tf_constant uniform (take 2 (shape observations) ++ [N]))
                      (tf_zeros (take 2 (shape observations))))).
Proof.
  intros Hreg Hrun.
  destruct (rl_models_inv name body Hreg)
    as [[-> ->]|[[-> ->]|[[-> ->]|[[-> ->]|[-> ->]]]]].
  - apply FeedForwardCategoricalPolicy_body_inv in Hrun as (H & Hs & Hr).
    split; [done|]. split; [done|]. left. split; [done|]. by exists true.
  - apply FeedForwardCnnSmallCategoricalPolicy_body_inv in Hrun as (H & Hs & Hr & _).
    split; [done|]. split; [done|]. left. split; [done|]. by exists true.
  - apply FeedForwardCnnSmallCategoricalPolicyNew_body_inv in Hrun
      as (H & Hs & Hr & _).
    split; [done|]. split; [done|]. left. split; [done|]. by exists true.
  - apply DenseBitwiseCategoricalPolicy_body_inv in Hrun as (H & Hs & Hr).
    split; [done|]. split; [done|]. left. split; [done|]. by exists false.
  - apply RandomPolicy_body_inv in Hrun
      as (obs & ta & N & u & Hin & Hta & HN & Hu & Hout & Hs & Hr).
    split; [done|]. split; [done|]. right. split; [done|].
    by exists obs, ta, N, u.
Qed.

Lemma returns_policy_shapes clips hparams features out :
  returns_policy clips hparams features out →
  ∃ observations target_action B T rest N logits value,
    features !! "inputs" = Some observations ∧
    shape observations = B :: T :: rest ∧
    features !! "target_action" = Some target_action ∧
    shape target_action !! 2 = Some N ∧
    out = outputs logits value ∧
    shape logits = [B; T; N] ∧ shape value = [B; T].
Proof.
  intros (obs & ta & B & T & rest & N & raw & logits & value
          & Hin & Hobs & Hta & HN & Hraw & Hclip & Hv & ->).
  exists obs, ta, B, T, rest, N, logits, value. repeat split; try done.
  destruct clips; [|by subst].
  apply clip_logits_shape in Hclip. by rewrite Hclip.
Qed.

End Bodies.

Lemma outputs_target_action logits value :
  outputs logits value !! "target_action" = Some logits.
Proof. done. Qed.

Lemma outputs_target_value logits value :
  outputs logits value !! "target_value" = Some value.
Proof. done. Qed.

(** X7. The output contract of the registered policy bodies.  Whenever a
    body returns, "inputs" and "target_action" are there, the result is the
    mapping of a logits tensor and a value tensor, the logits have the first
    two dimensions of the observations followed by the action count read
    off "target_action", the value has the first two dimensions of the
    observations, and the variable scope and its reuse flag are the ones the
    body was entered with.  Every body but the random one returns only on
    observations of rank 2 or more. *)
Theorem registered_bodies_output_contract (backend : Backend) (name : string)
    (body : model_body) (hparams : HParams) (features : features_t)
    (g : graph) (out : features_t) (g' : graph) :
  rl_models !! name = Some body →
  body hparams features g = (Ok out, g') →
  ∃ observations target_action N logits value,
    features !! "inputs" = Some observations ∧
    features !! "target_action" = Some target_action ∧
    shape target_action !! 2 = Some N ∧
    out = outputs logits value ∧
    shape logits = take 2 (shape observations) ++ [N] ∧
    shape value = take 2 (shape observations) ∧
    (name ≠ "random_policy" → 2 ≤ length (shape observations)) ∧
    scope g' = scope g ∧ reuse g' = reuse g.
Proof.
  intros Hreg Hrun.
  destruct (registered_body_cases name body hparams features g out g' Hreg Hrun)
    as (Hs & Hr & [(Hname & clips & H)|(-> & H)]).
  - apply returns_policy_shapes in H
      as (obs & ta & B & T & rest & N & logits & value
          & Hin & Hobs & Hta & HN & -> & Hl & Hv).
    exists obs, ta, N, logits, value. rewrite Hobs. simpl.
    repeat split; try done. lia.
  - destruct H as (obs & ta & N & uniform & Hin & Hta & HN & _ & ->).
    eexists obs, ta, N, _, _. by repeat split.
Qed.

Lemma registered_bodies_output_contract_witness :
  ∃ out g',
    @FeedForwardCategoricalPolicy_body zero_weights sample_ppo_hparams
      (sample_features [2; 3; 5] 4) empty_graph = (Ok out, g') ∧
    ∃ observations target_action N logits value,
      sample_features [2; 3; 5] 4 !! "inputs" = Some observations ∧
      sample_features [2; 3; 5] 4 !! "target_action" = Some target_action ∧
      shape target_action !! 2 = Some N ∧
      out = outputs logits value ∧
      shape logits = take 2 (shape observations) ++ [N] ∧
      shape value = take 2 (shape observations) ∧
      ("feed_forward_categorical_policy" ≠ "random_policy" →
         2 ≤ length (shape observations)) ∧
      scope g' = scope empty_graph ∧ reuse g' = reuse empty_graph.
Proof.
  eexists _, _. split; [vm_compute; reflexivity|].
  apply (registered_bodies_output_contract zero_weights
           "feed_forward_categorical_policy"
           (@FeedForwardCategoricalPolicy_body zero_weights) sample_ppo_hparams
           (sample_features [2; 3; 5] 4) empty_graph);
    [reflexivity | vm_compute; reflexivity].
Defined.

(** X8. Whenever [get_policy] returns over the registered models, the
    action space is a [Discrete] one with some [n] actions, the observations
    have a batch and a time dimension (B, T, ...), the logits have shape
    (B, T, n) and the value has shape (B, T); the variable scope and its
    reuse flag are back to what they were. *)
Theorem get_policy_output_shapes (backend : Backend) (observations : Tensor)
    (hparams : HParams) (action_space : space) (g : graph)
    (logits value : Tensor) (g' : graph) :
  get_policy rl_models observations hparams action_space g
    = (Ok (logits, value), g') →
  ∃ B T rest n,
    shape observations = B :: T :: rest ∧
    action_space = Discrete n ∧
    shape logits = [B; T; n] ∧
    shape value = [B; T] ∧
    scope g' = scope g ∧ reuse g' = reuse g.
Proof.
  unfold get_policy. destruct action_space as [n|dims|nvec|n]; try done.
  cbn [isinstance_Discrete negb].
  unfold build_policy, mbind, M_bind, lift, variable_scope_reuse, model_call,
    shape_list.
  destruct (outcome_bind _ _ _ (getattr hparams "policy_network"))
    as [body|e] eqn:Hbody; [|done].
  apply registry_model_ok in Hbody as (name & _ & Hreg).
  cbn [space_n].
  match goal with |- context [body hparams ?features ?G] =>
    destruct (body hparams features G) as [[out|e] g1] eqn:Hb; [|done];
    destruct (registered_body_cases _ _ _ _ _ _ _ Hreg Hb)
      as (_ & _ & [(Hname & clips & H)|(-> & H)])
  end.
  - apply returns_policy_shapes in H
      as (obs & ta & B & T & rest & N & l & v & Hin & Hobs & Hta & HN & -> & Hl & Hv).
    rewrite lookup_insert_eq in Hin. injection Hin as <-.
    rewrite lookup_insert_ne, lookup_insert_eq in Hta by done. injection Hta as <-.
    rewrite Hobs in HN. cbn in HN. injection HN as <-.
    unfold getitem. rewrite outputs_target_action, outputs_target_value.
    intros [= <- <- <-]. by exists B, T, rest, n.
  - destruct H as (obs & ta & N & uniform & Hin & Hta & HN & _ & ->).
    rewrite lookup_insert_eq in Hin. injection Hin as <-.
    rewrite lookup_insert_ne, lookup_insert_eq in Hta by done. injection Hta as <-.
    unfold getitem. rewrite outputs_target_action, outputs_target_value.
    intros [= <- <- <-].
    destruct (shape observations) as [|B [|T rest]]; try done.
    cbn in HN. injection HN as <-. by exists B, T, rest, n.
Qed.

Lemma get_policy_output_shapes_witness :
  ∃ logits value g',
    get_policy (@rl_models zero_weights) (tf_constant 7 [2; 3; 4; 4; 1])
      sample_ppo_hparams (Discrete 4) empty_graph = (Ok (logits, value), g') ∧
    ∃ B T rest n,
      shape (tf_constant 7 [2; 3; 4; 4; 1]) = B :: T :: rest ∧
      Discrete 4 = Discrete n ∧
      shape logits = [B; T; n] ∧
      shape value = [B; T] ∧
      scope g' = scope empty_graph ∧ reuse g' = reuse empty_graph.
Proof.
  eexists _, _, _. split; [vm_compute; reflexivity|].
  apply (get_policy_output_shapes zero_weights (tf_constant 7 [2; 3; 4; 4; 1])
           sample_ppo_hparams (Discrete 4) empty_graph).
  vm_compute. reflexivity.
Defined.

Lemma returns_clipped_policy_range hparams features out v c :
  returns_policy true hparams features out →
  hp_attrs hparams !! "logits_clip" = Some v →
  number_value v = Some c → (0 < c)%Q →
  ∃ logits, out !! "target_action" = Some logits ∧
    ∀ x, x ∈ entries logits → (0 <= x)%Q ∧ (x <= c)%Q.
Proof.
  intros (obs & ta & B & T & rest & N & raw & logits & value
          & _ & _ & _ & _ & _ & Hclip & _ & ->) Hattr Hnum Hc.
  exists logits. split; [done|].
  rewrite (clip_logits_positive raw hparams v c Hattr Hnum Hc) in Hclip.
  injection Hclip as <-. rewrite clipped_entries. intros x Hx.
  apply list_elem_of_fmap in Hx as (y & -> & Hy).
  apply clipped_entry_range; [by apply tf_reduce_min_le | done].
Qed.

(** X9. The three bodies that clip (the feed-forward one and the two small
    CNN ones) bound their logits: with [logits_clip] a number c > 0 in the
    hparams, whenever the body returns, every entry of the logits it
    returns lies between 0 and c. *)
Theorem clipping_bodies_bound_logits (backend : Backend) (name : string)
    (body : model_body) (hparams : HParams) (features : features_t)
    (g : graph) (out : features_t) (g' : graph) (v : pyval) (c : Q) :
  name ∈ ["feed_forward_categorical_policy";
          "feed_forward_cnn_small_categorical_policy";
          "feed_forward_cnn_small_categorical_policy_new"] →
  rl_models !! name = Some body →
  hp_attrs hparams !! "logits_clip" = Some v →
  number_value v = Some c →
  (0 < c)%Q →
  body hparams features g = (Ok out, g') →
  ∃ logits, out !! "target_action" = Some logits ∧
    ∀ x, x ∈ entries logits → (0 <= x)%Q ∧ (x <= c)%Q.
Proof.
  intros Hname Hreg Hattr Hnum Hc Hrun.
  rewrite !elem_of_cons, elem_of_nil in Hname.
  destruct (rl_models_inv name body Hreg)
    as [[-> ->]|[[-> ->]|[[-> ->]|[[-> ->]|[-> ->]]]]].
  - apply FeedForwardCategoricalPolicy_body_inv in Hrun as (H & _).
    by apply (returns_clipped_policy_range hparams features out v c).
  - apply FeedForwardCnnSmallCategoricalPolicy_body_inv in Hrun as (H & _).
    by apply (returns_clipped_policy_range hparams features out v c).
  - apply FeedForwardCnnSmallCategoricalPolicyNew_body_inv in Hrun as (H & _).
    by apply (returns_clipped_policy_range hparams features out v c).
  - by destruct Hname as [|[|[|]]].
  - by destruct Hname as [|[|[|]]].
Qed.

Lemma clipping_bodies_bound_logits_witness :
  ∃ out g',
    @FeedForwardCategoricalPolicy_body zero_weights
      (hp_setattr "logits_clip" (Float 4) sample_ppo_hparams)
      (sample_features [2; 3; 5] 4) empty_graph = (Ok out, g') ∧
    ∃ logits, out !! "target_action" = Some logits ∧
      ∀ x, x ∈ entries logits → (0 <= x)%Q ∧ (x <= 4)%Q.
Proof.
  eexists _, _. split; [vm_compute; reflexivity|].
  eapply (clipping_bodies_bound_logits zero_weights
            "feed_forward_categorical_policy"
            (@FeedForwardCategoricalPolicy_body zero_weights)
            (hp_setattr "logits_clip" (Float 4) sample_ppo_hparams)
            (sample_features [2; 3; 5] 4) empty_graph);
    [apply list_elem_of_here | reflexivity | reflexivity | reflexivity
    | reflexivity | vm_compute; reflexivity].
Defined.

(** X10. The two small CNN bodies return only on observations of rank 5:
    a batch of sequences of images, (B, T, height, width, channels). *)
Theorem cnn_bodies_need_image_sequences (backend : Backend) (name : string)
    (body : model_body) (hparams : HParams) (features : features_t)
    (g : graph) (out : features_t) (g' : graph) (observations : Tensor) :
  name ∈ ["feed_forward_cnn_small_categorical_policy";
          "feed_forward_cnn_small_categorical_policy_new"] →
  rl_models !! name = Some body →
  body hparams features g = (Ok out, g') →
  features !! "inputs" = Some observations →
  ∃ B T H W C, shape observations = [B; T; H; W; C].
Proof.
  intros Hname Hreg Hrun Hin.
  rewrite !elem_of_cons, elem_of_nil in Hname.
  assert (length (shape observations) = 5) as Hlen.
  { destruct (rl_models_inv name body Hreg)
      as [[-> ->]|[[-> ->]|[[-> ->]|[[-> ->]|[-> ->]]]]];
      try (by destruct Hname as [|[|]]).
    - apply FeedForwardCnnSmallCategoricalPolicy_body_inv in Hrun as (_ & _ & _ & H).
      by apply H.
    - apply FeedForwardCnnSmallCategoricalPolicyNew_body_inv in Hrun
        as (_ & _ & _ & H).
      by apply H. }
  destruct (shape observations) as [|B [|T [|H [|W [|C [|]]]]]]; try done.
  by exists B, T, H, W, C.
Qed.

Lemma cnn_bodies_need_image_sequences_witness :
  ∃ out g',
    @FeedForwardCnnSmallCategoricalPolicyNew_body zero_weights sample_ppo_hparams
      (sample_features [2; 3; 8; 8; 1] 4) empty_graph = (Ok out, g') ∧
    ∃ B T H W C, shape (tf_constant 7 [2; 3; 8; 8; 1]) = [B; T; H; W; C].
Proof.
  eexists _, _. split; [vm_compute; reflexivity|].
  eapply (cnn_bodies_need_image_sequences zero_weights
            "feed_forward_cnn_small_categorical_policy_new"
            (@FeedForwardCnnSmallCategoricalPolicyNew_body zero_weights)
            sample_ppo_hparams (sample_features [2; 3; 8; 8; 1] 4) empty_graph);
    [apply list_elem_of_further, list_elem_of_here | reflexivity
    | vm_compute; reflexivity | reflexivity].
Defined.
